(** * Invoice extraction system: page/document classifier, bounding-box
      table parser and OCR normaliser

    A shallow embedding of
      - [src/services/pdf_analyzer.py]            (module [PdfAnalyzer]),
      - [src/services/layout_parser/table_parser.py] (module [TableParser]),
      - [src/services/ocr_normalizer.py]          (module [OcrNormalizer]),
    followed by the properties established about them.

    Conventions of the embedding.
      - A Python [str] is a list of Unicode code points ([N]).
      - Python [int] values that are lengths or counters are [nat]; the parsed
        quantity is a [Z].
      - Python [float] values are exact rationals ([Q]).  Every float the
        classifier compares is a quotient of two counters set against a
        two-digit decimal literal; binary64 division is correctly rounded and
        monotone, so the comparison agrees with the exact one as long as the
        counters stay below 2^50.  The table parser's prices are the exact
        decimal values of the matched digit strings.
      - Python exceptions are the [Raise] results of the [result] monad.
      - The Unicode character database ([unicodedata], [str.lower], the digit
        class of [re]) is an interface, [UnicodeData]; the general theorems
        hold for every instance, the concrete inputs are evaluated with
        [basic_latin].
      - [difflib.SequenceMatcher(None, a, b).ratio()] is a parameter of the
        normaliser; the concrete inputs are evaluated with
        [SequenceMatcher_ratio]. *)

From Stdlib Require Import ZArith QArith Qabs List Bool Lia Ascii String.
From stdpp Require Import gmap.
Import ListNotations.

(* ================================================================== *)
(** ** Python values *)
(* ================================================================== *)

Abbreviation char := N (only parsing).
Abbreviation str := (list N) (only parsing).

(** [str_of s] reads a Basic Latin literal as a [str]. *)
Definition str_of (s : string) : str :=
  List.map (fun a => N_of_ascii a) (list_ascii_of_string s).

Definition char_eqb (a b : char) : bool := N.eqb a b.

Fixpoint str_eqb (a b : str) : bool :=
  match a, b with
  | [], [] => true
  | x :: a', y :: b' => char_eqb x y && str_eqb a' b'
  | _, _ => false
  end.

Definition SPACE : char := 32%N.
Definition REPLACEMENT_CHARACTER : char := 65533%N.   (* U+FFFD *)

(** [str.isspace] on one character: CPython's [_PyUnicode_IsWhitespace]. *)
Definition isspace (c : char) : bool :=
  ((9 <=? c) && (c <=? 13) || (28 <=? c) && (c <=? 31) || (c =? 32)
   || (c =? 133) || (c =? 160) || (c =? 5760)
   || (8192 <=? c) && (c <=? 8202) || (c =? 8232) || (c =? 8233)
   || (c =? 8239) || (c =? 8287) || (c =? 12288))%N.

Fixpoint lstrip (s : str) : str :=
  match s with
  | c :: s' => if isspace c then lstrip s' else s
  | [] => []
  end.

Definition rstrip (s : str) : str := rev (lstrip (rev s)).

(** [s.strip()] *)
Definition strip (s : str) : str := rstrip (lstrip s).

(** [sep.join(parts)] *)
Fixpoint join (sep : str) (parts : list str) : str :=
  match parts with
  | [] => []
  | [p] => p
  | p :: ps => p ++ sep ++ join sep ps
  end.

Definition is_nil {A} (l : list A) : bool :=
  match l with [] => true | _ :: _ => false end.

(** [sum(1 for x in l if p x)] *)
Definition count_if {A} (p : A -> bool) (l : list A) : nat :=
  List.length (List.filter p l).

(** [needle in haystack] for strings. *)
Fixpoint startswith (needle hay : str) : bool :=
  match needle, hay with
  | [], _ => true
  | x :: n', y :: h' => char_eqb x y && startswith n' h'
  | _ :: _, [] => false
  end.

Fixpoint contains (needle hay : str) : bool :=
  startswith needle hay ||
  match hay with
  | [] => false
  | _ :: h' => contains needle h'
  end.

(** Exceptions. *)
Inductive exn := ZeroDivisionError | ValueError | KeyError.

Inductive result (A : Type) : Type :=
  | Ok (a : A)
  | Raise (e : exn).
Arguments Ok {A} a.
Arguments Raise {A} e.

Definition bind {A B} (r : result A) (k : A -> result B) : result B :=
  match r with
  | Ok a => k a
  | Raise e => Raise e
  end.

Notation "'let*' x ':=' r 'in' k" := (bind r (fun x => k))
  (at level 10, x pattern, r at level 100, k at level 200).

(** Rational comparisons as booleans. *)
Definition Qleb (a b : Q) : bool := Qle_bool a b.
Definition Qltb (a b : Q) : bool := negb (Qle_bool b a).

(** [a / b] on two counters, where the code has made sure that [b >= 1]. *)
Definition ratio_of (a b : nat) : Q :=
  (inject_Z (Z.of_nat a) / inject_Z (Z.of_nat b))%Q.

(** The Unicode character database as the code uses it. *)
Class UnicodeData := {
  (** [unicodedata.category(c)] *)
  category : char -> string;
  (** [unicodedata.normalize("NFC", s)] *)
  normalize_NFC : str -> str;
  (** [s.lower()] *)
  lower : str -> str;
  (** value of a character of the class [\d], which is also the class of
      characters that [int] and [float] read as digits *)
  decimal : char -> option Z;
  (** [.] and [,] are punctuation, not digits *)
  decimal_full_stop : decimal 46%N = None;
  decimal_comma : decimal 44%N = None;
}.

(** The Basic Latin block (U+0000 to U+007F), plus the category of U+FFFD.
    The code only tells the classes L*, Cc and Cf apart, so the printable
    signs of the block are lumped under one non-letter category.  Outside
    these code points the instance is a placeholder; the examples below stay
    inside them. *)
Definition basic_latin_category (c : char) : string :=
  (if (c <? 32) || (c =? 127) then "Cc"
   else if c =? 32 then "Zs"
   else if (48 <=? c) && (c <=? 57) then "Nd"
   else if (65 <=? c) && (c <=? 90) then "Lu"
   else if (97 <=? c) && (c <=? 122) then "Ll"
   else if c =? 65533 then "So"
   else if c <? 127 then "Po"
   else "Cn")%N%string.

Definition basic_latin_lower (s : str) : str :=
  List.map (fun c => if (65 <=? c) && (c <=? 90) then c + 32 else c)%N s.

Definition basic_latin_decimal (c : char) : option Z :=
  if ((48 <=? c) && (c <=? 57))%N then Some (Z.of_N c - 48)%Z else None.

Definition basic_latin : UnicodeData := {|
  category := basic_latin_category;
  normalize_NFC := fun s => s;
  lower := basic_latin_lower;
  decimal := basic_latin_decimal;
  decimal_full_stop := eq_refl;
  decimal_comma := eq_refl;
|}.

(* ================================================================== *)
(** ** pdf_analyzer.py *)
(* ================================================================== *)

Module PdfAnalyzer.

Local Open Scope Q_scope.

(** The three values of [page_type] / [pdf_type]; [_classify_page] is their
    only producer. *)
Inductive page_type_t := Text | Image | Broken.

Definition page_type_eqb (a b : page_type_t) : bool :=
  match a, b with
  | Text, Text | Image, Image | Broken, Broken => true
  | _, _ => false
  end.

Record PageAnalysis := {
  page_number : nat;
  page_type : page_type_t;
  has_text : bool;
  has_images : bool;
  word_count : nat;
  char_count : nat;
  image_count : nat;
  is_garbled : bool;
  garbled_reasons : list string;
  image_coverage : Q;
  letter_ratio : Q;
}.

(** The dictionary [_build_details] returns. *)
Record Details := {
  page_types : gmap nat page_type_t;
  (** 'avg_words_per_page', 'avg_images_per_page', 'avg_letter_ratio',
      'total_words', 'total_images' *)
  content_stats : Q * Q * Q * nat * nat;
  garbled_reasons_per_page : gmap nat (list string);
}.

Record PDFAnalysis := {
  pdf_type : page_type_t;
  page_count : nat;
  pages : list PageAnalysis;
  total_words : nat;
  total_images : nat;
  confidence : Q;
  page_type_counts : nat * nat * nat;        (* 'text', 'image', 'broken' *)
  analysis_details : Details;
}.

(** What [_analyze_page] reads from a [fitz.Page]. *)
Record Page := {
  (** the strings [w[4]] of [page.get_text("words")] *)
  get_text_words : list str;
  (** [page.get_text("text")] *)
  get_text_text : str;
  (** [page.get_images(full=True)]; each image with the (width, height) of
      the rectangles [page.get_image_rects] gives for it, [None] when that
      call raises *)
  get_images : list (option (list (Q * Q)));
  (** [page.rect.width], [page.rect.height] *)
  rect : Q * Q;
}.

(** Thresholds *)
Definition MIN_WORDS_FOR_TEXT : nat := 5.
Definition MIN_CHARS_FOR_VALID_WORD : nat := 2.
Definition MIN_LETTER_RATIO_FOR_TEXT : Q := 0.40.

(** Garbled detection *)
Definition REPLACEMENT_HARD : Q := 0.05.
Definition REPLACEMENT_SOFT : Q := 0.01.
Definition CONTROL_CHAR_THRESHOLD : Q := 0.02.
Definition FORMAT_CHAR_THRESHOLD : Q := 0.05.
Definition SINGLE_CHAR_THRESHOLD : Q := 0.70.
Definition LETTER_RATIO_VERY_LOW : Q := 0.20.
Definition LETTER_RATIO_LOW : Q := 0.30.

Definition _classify_page (has_text has_images is_garbled : bool) : page_type_t :=
  if has_text && negb is_garbled then Text
  else if negb has_text && has_images then Image
  else Broken.

Section WithUnicode.
Context {U : UnicodeData}.

Definition is_letter (c : char) : bool := String.prefix "L" (category c).

(** The four characters the control/format loop skips. *)
Definition is_plain_blank (c : char) : bool :=
  ((c =? 10) || (c =? 13) || (c =? 9) || (c =? 32))%N.

Definition in_reasons (r : string) (reasons : list string) : bool :=
  existsb (String.eqb r) reasons.

Definition _is_text_garbled (text : str) (raw_words valid_words : list str)
    (char_count word_count : nat) (letter_ratio : Q) : bool * list string :=
  let t := strip text in
  match t with
  | [] => (false, [])
  | _ =>
    let denom := count_if (fun c => negb (isspace c)) t in
    let n := Nat.max denom 1 in
    (* 1. Replacement chars *)
    let repl_count := count_if (char_eqb REPLACEMENT_CHARACTER) t in
    let repl_ratio := ratio_of repl_count n in
    if Qleb REPLACEMENT_HARD repl_ratio then (true, ["replacement_hard"%string])
    else
    let reasons :=
      if Qleb REPLACEMENT_SOFT repl_ratio then ["replacement_soft"%string] else [] in
    (* 2. Control vs Format *)
    let cc_count :=
      count_if (fun c => negb (is_plain_blank c) && String.eqb (category c) "Cc") t in
    let cf_count :=
      count_if (fun c => negb (is_plain_blank c)
                         && negb (String.eqb (category c) "Cc")
                         && String.eqb (category c) "Cf") t in
    let cc_ratio := ratio_of cc_count n in
    let cf_ratio := ratio_of cf_count n in
    if Qltb CONTROL_CHAR_THRESHOLD cc_ratio then (true, ["control_chars_high"%string])
    else
    let reasons :=
      if Qltb FORMAT_CHAR_THRESHOLD cf_ratio
      then reasons ++ ["format_chars_suspicious"%string] else reasons in
    (* 3. Single-char tokens *)
    let single_chars :=
      count_if (fun w => Nat.eqb (List.length (strip w)) 1) raw_words in
    let raw_word_count := Nat.max (List.length raw_words) 1 in
    let single_ratio := ratio_of single_chars raw_word_count in
    if Qltb SINGLE_CHAR_THRESHOLD single_ratio
    then (true, ["single_char_tokens_high"%string])
    (* 4. Letter ratio *)
    else if Qltb letter_ratio LETTER_RATIO_VERY_LOW
    then (true, ["letter_ratio_very_low"%string])
    else if Qltb letter_ratio LETTER_RATIO_LOW && (word_count <? 5)%nat
    then (true, ["letter_ratio_low_and_few_words"%string])
    (* 5. Char/word mismatch *)
    else if (100 <? char_count)%nat && (word_count <? 5)%nat
    then (true, ["char_word_mismatch"%string])
    (* 6. Soft signals *)
    else if in_reasons "replacement_soft" reasons && (word_count <? 10)%nat
    then (true, ["replacement_soft_plus_low_words"%string])
    else if in_reasons "format_chars_suspicious" reasons && (word_count <? 10)%nat
    then (true, ["format_chars_plus_low_words"%string])
    else (false, reasons)
  end.

(** The inner [try] skips an image whose rectangles cannot be read; the outer
    one catches the division by a zero page area. *)
Definition _calculate_image_coverage (page : Page) : Q :=
  let image_list := get_images page in
  match image_list with
  | [] => 0.0
  | _ :: _ =>
    let page_area := (fst (rect page) * snd (rect page))%Q in
    let total_image_area :=
      fold_left
        (fun acc img =>
           match img with
           | Some img_rects =>
               fold_left (fun acc r => (acc + fst r * snd r)%Q) img_rects acc
           | None => acc
           end)
        image_list 0%Q in
    if Qeq_bool page_area 0 then 0.5
    else
      let coverage := (total_image_area / page_area)%Q in
      if Qltb 1.0 coverage then 1.0 else coverage
  end.

Definition _analyze_page (page : Page) (page_number : nat) : PageAnalysis :=
  (* Extract words *)
  let raw_words := get_text_words page in
  let valid_words :=
    List.filter (fun w => (MIN_CHARS_FOR_VALID_WORD <=? List.length w)%nat) raw_words in
  let word_count := List.length valid_words in
  (* Images *)
  let image_list := get_images page in
  let image_count := List.length image_list in
  let has_images := (0 <? image_count)%nat in
  (* Performance optimization: skip text extraction for obvious scans *)
  let '(text, char_count, letter_ratio) :=
    if (word_count =? 0)%nat && has_images then ([], 0%nat, 0.0)
    else
      let text := get_text_text page in
      let stripped := strip text in
      let char_count := List.length stripped in
      let non_space_count := count_if (fun c => negb (isspace c)) stripped in
      let letter_count := count_if is_letter stripped in
      (text, char_count, ratio_of letter_count (Nat.max non_space_count 1)) in
  (* Has meaningful text? *)
  let has_text :=
    (MIN_WORDS_FOR_TEXT <=? word_count)%nat
    || ((80 <=? char_count)%nat && Qleb MIN_LETTER_RATIO_FOR_TEXT letter_ratio) in
  (* Garbled check *)
  let '(is_garbled, garbled_reasons) :=
    _is_text_garbled text raw_words valid_words char_count word_count letter_ratio in
  (* Image coverage *)
  let image_coverage := _calculate_image_coverage page in
  (* Determine page type *)
  let page_type := _classify_page has_text has_images is_garbled in
  {| page_number := page_number;
     page_type := page_type;
     has_text := has_text;
     has_images := has_images;
     word_count := word_count;
     char_count := char_count;
     image_count := image_count;
     is_garbled := is_garbled;
     garbled_reasons := garbled_reasons;
     image_coverage := image_coverage;
     letter_ratio := letter_ratio |}.

End WithUnicode.

(** [sum(1 for p in pages if p.page_type == ty)] *)
Definition count_type (ty : page_type_t) (pages : list PageAnalysis) : nat :=
  count_if (fun p => page_type_eqb (page_type p) ty) pages.

Definition _determine_pdf_type (pages : list PageAnalysis) : page_type_t :=
  match pages with
  | [] => Broken
  | _ =>
    let text_pages := count_type Text pages in
    let image_pages := count_type Image pages in
    let broken_pages := count_type Broken pages in
    let total := List.length pages in
    (* All broken *)
    if (broken_pages =? total)%nat then Broken
    (* Majority broken *)
    else if Qltb 0.5 (ratio_of broken_pages total) then Broken
    (* Majority text *)
    else if Qleb 0.5 (ratio_of text_pages total) then Text
    (* Majority image *)
    else if Qleb 0.5 (ratio_of image_pages total) then Image
    (* Mixed: more text than image -> text *)
    else if (image_pages <? text_pages)%nat then Text
    else Image
  end.

(** [matching / total] raises [ZeroDivisionError] on an empty page list. *)
Definition _calculate_confidence (pages : list PageAnalysis)
    (pdf_type : page_type_t) : result Q :=
  match pdf_type with
  | Broken => Ok 0.0
  | _ =>
    let total := List.length pages in
    let matching := count_type pdf_type pages in
    if (total =? 0)%nat then Raise ZeroDivisionError
    else Ok (ratio_of matching total)
  end.

Definition sum_nat (l : list nat) : nat := fold_left Nat.add l 0%nat.
Definition sum_Q (l : list Q) : Q := fold_left Qplus l 0.

(** [{key(p): value(p) for p in pages}]: a later page overwrites an earlier
    one of the same key. *)
Definition dict_of {V} (key : PageAnalysis -> nat) (value : PageAnalysis -> V)
    (pages : list PageAnalysis) : gmap nat V :=
  fold_left (fun d p => <[key p := value p]> d) pages ∅.

(** The three averages of 'content_stats' divide by [len(pages)]. *)
Definition _build_details (pages : list PageAnalysis) (pdf_type : page_type_t)
    : result Details :=
  let n := List.length pages in
  let page_types := dict_of page_number page_type pages in
  if (n =? 0)%nat then Raise ZeroDivisionError
  else
    Ok {| page_types := page_types;
          content_stats :=
            (ratio_of (sum_nat (List.map word_count pages)) n,
             ratio_of (sum_nat (List.map image_count pages)) n,
             (sum_Q (List.map letter_ratio pages) / inject_Z (Z.of_nat n))%Q,
             sum_nat (List.map word_count pages),
             sum_nat (List.map image_count pages));
          garbled_reasons_per_page :=
            dict_of page_number garbled_reasons
              (List.filter (fun p => negb (is_nil (garbled_reasons p))) pages) |}.

Fixpoint enumerate_from {A} (i : nat) (l : list A) : list (nat * A) :=
  match l with
  | [] => []
  | x :: l' => (i, x) :: enumerate_from (S i) l'
  end.

(** [analyze] once the document is open: [doc] is the list of its pages. *)
Definition analyze {U : UnicodeData} (doc : list Page) : result PDFAnalysis :=
  let page_analyses :=
    List.map (fun ip => _analyze_page (snd ip) (fst ip + 1)%nat) (enumerate_from 0 doc) in
  let total_words := sum_nat (List.map word_count page_analyses) in
  let total_images := sum_nat (List.map image_count page_analyses) in
  (* Determine PDF type from page types *)
  let pdf_type := _determine_pdf_type page_analyses in
  let* confidence := _calculate_confidence page_analyses pdf_type in
  let page_type_counts :=
    (count_type Text page_analyses, count_type Image page_analyses,
     count_type Broken page_analyses) in
  let* details := _build_details page_analyses pdf_type in
  Ok {| pdf_type := pdf_type;
        page_count := List.length page_analyses;
        pages := page_analyses;
        total_words := total_words;
        total_images := total_images;
        confidence := confidence;
        page_type_counts := page_type_counts;
        analysis_details := details |}.

End PdfAnalyzer.

(* ================================================================== *)
(** ** layout_parser/table_parser.py *)
(* ================================================================== *)

Module TableParser.

Local Open Scope Q_scope.

(** [OCRToken] of paddle_ocr_service.py *)
Record OCRToken := {
  text : str;
  ocr_confidence : Q;     (* the field [confidence] *)
  bbox : Q * Q * Q * Q;   (* (x0, y0, x1, y1) *)
  center_x : Q;
  center_y : Q;
}.

Record InvoiceItem := {
  description : str;
  quantity : Z;
  unit_price : Q;
  total_price : Q;
  confidence : Q;
}.

Definition HEADER_KEYWORDS : list str :=
  [ str_of "tarih"; str_of "vergi"; str_of "daire";
    [115; 97; 121; 305; 110]%N;                       (* "sayın" *)
    str_of "seri"; str_of "irsaliye"; str_of "toplam"; str_of "kdv";
    str_of "genel"; str_of "no"; str_of "vd" ].

(** The two spellings the description is patched from, and their target. *)
Definition ORUN : str := [214; 114; 252; 110]%N.      (* "Örün" *)
Definition ZERO_RUN : str := [48; 114; 252; 110]%N.   (* "0rün" *)
Definition URUN : str := [220; 114; 252; 110]%N.      (* "Ürün" *)

(** [s.replace(old, new)] for a non-empty [old]: the occurrences are taken
    from the left and do not overlap; [skip] counts the characters of a
    replaced occurrence still to be dropped. *)
Fixpoint replace_from (old new : str) (skip : nat) (s : str) : str :=
  match s with
  | [] => []
  | c :: s' =>
    match skip with
    | S k => replace_from old new k s'
    | O =>
      if startswith old s
      then new ++ replace_from old new (List.length old - 1) s'
      else c :: replace_from old new 0 s'
    end
  end.

Definition replace (old new s : str) : str := replace_from old new 0 s.

(** [a / b] on floats *)
Definition truediv (a b : Q) : result Q :=
  if Qeq_bool b 0 then Raise ZeroDivisionError else Ok (a / b).

(** [sorted(l, key=key)]: a stable insertion sort. *)
Fixpoint insert_sorted {A} (key : A -> Q) (x : A) (l : list A) : list A :=
  match l with
  | [] => [x]
  | y :: l' =>
    if Qltb (key x) (key y) then x :: l else y :: insert_sorted key x l'
  end.

Definition sorted {A} (key : A -> Q) (l : list A) : list A :=
  fold_left (fun acc x => insert_sorted key x acc) l [].

(** The inner loop and the [if not placed] of [_group_rows]: the token joins
    the first row whose first token is near enough, else it opens a row.
    Rows are never empty. *)
Fixpoint place_token (y_threshold : Q) (tok : OCRToken)
    (rows : list (list OCRToken)) : list (list OCRToken) :=
  match rows with
  | [] => [[tok]]
  | row :: rest =>
    match row with
    | row0 :: _ =>
      if Qltb (Qabs (center_y row0 - center_y tok)) y_threshold
      then (row ++ [tok]) :: rest
      else row :: place_token y_threshold tok rest
    | [] => row :: place_token y_threshold tok rest
    end
  end.

Definition _group_rows (tokens : list OCRToken) (y_threshold : Q)
    : list (list OCRToken) :=
  fold_left (fun rows tok => place_token y_threshold tok rows)
            (sorted center_y tokens) [].

Record Cols := {
  desc : list str;
  qty : list str;
  unit : list str;
  total : list str;
}.

(** [{"desc": [], "qty": [], "unit": [], "total": []}] *)
Definition no_cols : Cols := {| desc := []; qty := []; unit := []; total := [] |}.

Section WithUnicode.
Context {U : UnicodeData}.

Definition is_digit (c : char) : bool :=
  match decimal c with Some _ => true | None => false end.

Definition is_separator (c : char) : bool := ((c =? 46) || (c =? 44))%N.

(** Longest prefix of characters satisfying [p], and the rest. *)
Fixpoint span (p : char -> bool) (s : str) : str * str :=
  match s with
  | c :: s' =>
    if p c then let '(a, b) := span p s' in (c :: a, b) else ([], s)
  | [] => ([], [])
  end.

(** The pattern [\d+(?:[.,]\d+)?] matched at the head of [s]: the match and
    what follows it. *)
Definition match_number (s : str) : option (str * str) :=
  let '(int_part, after_int) := span is_digit s in
  match int_part with
  | [] => None
  | _ :: _ =>
    match after_int with
    | c :: after_sep =>
      if is_separator c then
        let '(frac_part, after_frac) := span is_digit after_sep in
        match frac_part with
        | [] => Some (int_part, after_int)
        | _ :: _ => Some (int_part ++ c :: frac_part, after_frac)
        end
      else Some (int_part, after_int)
    | [] => Some (int_part, [])
    end
  end.

(** [re.findall] for that pattern: leftmost matches, not overlapping. *)
Fixpoint findall_from (fuel : nat) (s : str) : list str :=
  match fuel with
  | O => []
  | S fuel' =>
    match s with
    | [] => []
    | _ :: s' =>
      match match_number s with
      | Some (m, rest) => m :: findall_from fuel' rest
      | None => findall_from fuel' s'
      end
    end
  end.

Definition findall (s : str) : list str := findall_from (List.length s) s.

(** Value of a run of digits, most significant first. *)
Definition digits_value (s : str) : option Z :=
  fold_left
    (fun acc c =>
       match acc, decimal c with
       | Some v, Some d => Some (10 * v + d)%Z
       | _, _ => None
       end)
    s (Some 0%Z).

(** [int(s)] on what the pattern can match once [,] is replaced by [.]:
    a run of digits is read (the interpreter's limit on the number of digits
    left aside), anything with a [.] is a [ValueError]. *)
Definition int_cast (s : str) : option Z :=
  match s with
  | [] => None
  | _ :: _ => digits_value s
  end.

(** [float(s)] on the same strings: digits with at most one [.] among
    them. *)
Definition float_cast (s : str) : option Q :=
  let '(int_part, after_int) := span is_digit s in
  match after_int with
  | [] =>
    match int_part, digits_value int_part with
    | _ :: _, Some v => Some (inject_Z v)
    | _, _ => None
    end
  | c :: frac_part =>
    if (c =? 46)%N && negb (is_nil int_part && is_nil frac_part) then
      match digits_value (int_part ++ frac_part) with
      | Some v =>
        Some (inject_Z v / inject_Z (10 ^ Z.of_nat (List.length frac_part)))
      | None => None
      end
    else None
  end.

Definition _safe_number {A} (parts : list str) (default : A)
    (cast : str -> option A) : A :=
  let joined := join [SPACE] parts in
  let nums := findall joined in
  match nums with
  | [] => default
  | num0 :: _ =>
    match cast (replace (str_of ",") (str_of ".") num0) with
    | Some v => v
    | None => default
    end
  end.

(** The body of the [for tok in row] loop. *)
Definition add_token (page_width : Q) (cols : Cols) (tok : OCRToken)
    : result Cols :=
  let text := strip (text tok) in
  match text with
  | [] => Ok cols
  | _ :: _ =>
    let* x_ratio := truediv (center_x tok) page_width in
    if Qltb x_ratio 0.35 then
      Ok {| desc := desc cols ++ [text]; qty := qty cols;
            unit := unit cols; total := total cols |}
    else if Qltb x_ratio 0.50 then
      Ok {| desc := desc cols; qty := qty cols ++ [text];
            unit := unit cols; total := total cols |}
    else if Qltb x_ratio 0.70 then
      Ok {| desc := desc cols; qty := qty cols;
            unit := unit cols ++ [text]; total := total cols |}
    else
      Ok {| desc := desc cols; qty := qty cols;
            unit := unit cols; total := total cols ++ [text] |}
  end.

Fixpoint fill_cols (page_width : Q) (cols : Cols) (row : list OCRToken)
    : result Cols :=
  match row with
  | [] => Ok cols
  | tok :: row' =>
    let* cols' := add_token page_width cols tok in
    fill_cols page_width cols' row'
  end.

Definition text_joined (row : list OCRToken) : str :=
  join [SPACE] (List.map (fun t => lower (text t)) row).

Definition is_header (row : list OCRToken) : bool :=
  existsb (fun k => contains k (text_joined row)) HEADER_KEYWORDS.

Definition _parse_row (row : list OCRToken) (page_width : Q)
    : result (option InvoiceItem) :=
  (* HEADER / METADATA FILTER *)
  if is_header row then Ok None
  else
    let* cols :=
      fill_cols page_width no_cols row in
    (* must look like a real row *)
    if is_nil (desc cols) || is_nil (unit cols) || is_nil (total cols) then Ok None
    else
      let description := join [SPACE] (desc cols) in
      let description := replace ZERO_RUN URUN (replace ORUN URUN description) in
      let qty := _safe_number (qty cols) 1%Z int_cast in
      let unit_price := _safe_number (unit cols) 0.0 float_cast in
      let total_price := _safe_number (total cols) 0.0 float_cast in
      if (qty <=? 0)%Z || Qleb unit_price 0 || Qleb total_price 0 then Ok None
      else
        let diff := Qabs (inject_Z qty * unit_price - total_price) in
        let confidence := if Qltb diff 1 then 0.95 else 0.85 in
        Ok (Some {| description := description;
                    quantity := qty;
                    unit_price := unit_price;
                    total_price := total_price;
                    confidence := confidence |}).

Fixpoint parse_rows (rows : list (list OCRToken)) (page_width : Q)
    : result (list InvoiceItem) :=
  match rows with
  | [] => Ok []
  | row :: rows' =>
    let* item := _parse_row row page_width in
    let* items := parse_rows rows' page_width in
    match item with
    | Some it => Ok (it :: items)
    | None => Ok items
    end
  end.

Definition parse (tokens : list OCRToken) (page_width : Q)
    : result (list InvoiceItem) :=
  let rows := _group_rows tokens 12 in
  parse_rows rows page_width.

End WithUnicode.

End TableParser.

(* ================================================================== *)
(** ** ocr_normalizer.py *)
(* ================================================================== *)

Module OcrNormalizer.

Local Open Scope Q_scope.

(** The line boundaries of [str.splitlines]. *)
Definition is_linebreak (c : char) : bool :=
  ((10 <=? c) && (c <=? 13) || (28 <=? c) && (c <=? 30) || (c =? 133)
   || (c =? 8232) || (c =? 8233))%N.

(** [text.splitlines()]; [cur] is the line being read, last character first.
    A carriage return followed by a line feed is one boundary. *)
Fixpoint splitlines_from (cur : str) (s : str) : list str :=
  match s with
  | [] => match cur with [] => [] | _ :: _ => [rev cur] end
  | c :: s' =>
    if (c =? 13)%N then
      match s' with
      | c' :: s'' =>
        if (c' =? 10)%N then rev cur :: splitlines_from [] s''
        else rev cur :: splitlines_from [] s'
      | [] => rev cur :: splitlines_from [] s'
      end
    else if is_linebreak c then rev cur :: splitlines_from [] s'
    else splitlines_from (c :: cur) s'
  end.

Definition splitlines (s : str) : list str := splitlines_from [] s.

(** [text.split()]: the maximal runs of characters that are not whitespace. *)
Fixpoint split_from (cur : str) (s : str) : list str :=
  match s with
  | [] => match cur with [] => [] | _ :: _ => [rev cur] end
  | c :: s' =>
    if isspace c then
      match cur with
      | [] => split_from [] s'
      | _ :: _ => rev cur :: split_from [] s'
      end
    else split_from (c :: cur) s'
  end.

Definition split (s : str) : list str := split_from [] s.

(** The [for line in lines] loop of [_merge_broken_lines], on the state
    ([merged], [buffer]). *)
Fixpoint merge_loop (lines : list str) (merged : list str) (buffer : str)
    : list str * str :=
  match lines with
  | [] => (merged, buffer)
  | line :: rest =>
    let line := strip line in
    if (List.length line <=? 2)%nat then merge_loop rest merged (buffer ++ line)
    else
      match buffer with
      | _ :: _ => merge_loop rest (merged ++ [buffer ++ [SPACE] ++ line]) []
      | [] => merge_loop rest (merged ++ [line]) buffer
      end
  end.

Definition _merge_broken_lines (lines : list str) : list str :=
  let '(merged, buffer) := merge_loop lines [] [] in
  match buffer with
  | _ :: _ => merged ++ [buffer]
  | [] => merged
  end.

(** [Counter(words)]: the words in the order they are first seen, each with
    its number of occurrences. *)
Fixpoint counter_add (w : str) (counter : list (str * nat)) : list (str * nat) :=
  match counter with
  | [] => [(w, 1%nat)]
  | (k, n) :: counter' =>
    if str_eqb k w then (k, S n) :: counter'
    else (k, n) :: counter_add w counter'
  end.

Definition Counter (words : list str) : list (str * nat) :=
  fold_left (fun counter w => counter_add w counter) words [].

(** [counter[x]], which is 0 for a missing key. *)
Fixpoint counter_get (counter : list (str * nat)) (x : str) : nat :=
  match counter with
  | [] => 0%nat
  | (k, n) :: counter' => if str_eqb k x then n else counter_get counter' x
  end.

(** [max(l, key=key)]: the first of the elements with the largest key. *)
Fixpoint max_from {A} (key : A -> nat) (best : A) (l : list A) : A :=
  match l with
  | [] => best
  | x :: l' =>
    if (key best <? key x)%nat then max_from key x l' else max_from key best l'
  end.

Definition max_by {A} (key : A -> nat) (l : list A) : result A :=
  match l with
  | [] => Raise ValueError
  | x :: l' => Ok (max_from key x l')
  end.

Section WithRatio.
Context {U : UnicodeData}.
(** [difflib.SequenceMatcher(None, a, b).ratio()] *)
Variable ratio : str -> str -> Q.

(** One turn of the [for w in counter] loop. *)
Definition vote_step (counter : list (str * nat))
    (canonical : gmap (list N) (list N)) (w : str)
    : result (gmap (list N) (list N)) :=
  match canonical !! w with
  | Some _ => Ok canonical
  | None =>
    let group :=
      List.filter (fun other => Qltb 0.85 (ratio w other)) (List.map fst counter) in
    let* winner := max_by (counter_get counter) group in
    Ok (fold_left (fun canonical g => <[g := winner]> canonical) group canonical)
  end.

Fixpoint vote_loop (counter : list (str * nat))
    (canonical : gmap (list N) (list N)) (ws : list str)
    : result (gmap (list N) (list N)) :=
  match ws with
  | [] => Ok canonical
  | w :: ws' =>
    let* canonical' := vote_step counter canonical w in
    vote_loop counter canonical' ws'
  end.

(** [[canonical[w] for w in words]] *)
Fixpoint lookup_all (canonical : gmap (list N) (list N)) (words : list str)
    : result (list str) :=
  match words with
  | [] => Ok []
  | w :: words' =>
    match canonical !! w with
    | Some c =>
      let* rest := lookup_all canonical words' in
      Ok (c :: rest)
    | None => Raise KeyError
    end
  end.

Definition _majority_vote (words : list str) : result (list str) :=
  let counter := Counter words in
  let* canonical := vote_loop counter ∅ (List.map fst counter) in
  lookup_all canonical words.

Definition normalize (text : str) : result str :=
  match text with
  | [] => Ok text
  | _ :: _ =>
    (* 1. Unicode normalization *)
    let text := normalize_NFC text in
    let lines := splitlines text in
    (* 2. merge broken lines *)
    let lines := _merge_broken_lines lines in
    (* 3. word-level majority vote *)
    let words := split (join [SPACE] lines) in
    let* words := _majority_vote words in
    Ok (join [SPACE] words)
  end.

End WithRatio.

(** *** difflib.SequenceMatcher, for sequences under 200 elements and no junk

    [find_longest_match] returns the longest block common to [a] and [b];
    of the longest ones, that which starts earliest in [a], and of those,
    that which starts earliest in [b]. *)
Fixpoint common_prefix_length (a b : str) : nat :=
  match a, b with
  | x :: a', y :: b' =>
    if char_eqb x y then S (common_prefix_length a' b') else 0%nat
  | _, _ => 0%nat
  end.

Fixpoint scan_b (ai : str) (i : nat) (bj : str) (j : nat)
    (best : nat * nat * nat) : nat * nat * nat :=
  let k := common_prefix_length ai bj in
  let best' := if (snd best <? k)%nat then (i, j, k) else best in
  match bj with
  | [] => best'
  | _ :: bj' => scan_b ai i bj' (S j) best'
  end.

Fixpoint scan_a (ai : str) (i : nat) (b : str)
    (best : nat * nat * nat) : nat * nat * nat :=
  let best' := scan_b ai i b 0 best in
  match ai with
  | [] => best'
  | _ :: ai' => scan_a ai' (S i) b best'
  end.

Definition find_longest_match (a b : str) : nat * nat * nat :=
  scan_a a 0 b (0, 0, 0)%nat.

(** Sum of the sizes of [get_matching_blocks]: the longest block, then the
    same to its left and to its right. *)
Fixpoint matches (fuel : nat) (a b : str) : nat :=
  match fuel with
  | O => 0
  | S fuel' =>
    let '(i, j, k) := find_longest_match a b in
    if (k =? 0)%nat then 0%nat
    else (k + matches fuel' (firstn i a) (firstn j b)
            + matches fuel' (skipn (i + k) a) (skipn (j + k) b))%nat
  end.

Definition SequenceMatcher_ratio (a b : str) : Q :=
  let length := (List.length a + List.length b)%nat in
  if (length =? 0)%nat then 1.0
  else (2 * inject_Z (Z.of_nat (matches (S (List.length a)) a b))
        / inject_Z (Z.of_nat length)).

End OcrNormalizer.

(* ================================================================== *)
(** ** Sample inputs and the vocabulary of the properties *)
(* ================================================================== *)

Module Samples.

Local Open Scope Q_scope.

Definition text_page : PdfAnalyzer.Page :=
  {| PdfAnalyzer.get_text_words :=
       List.map str_of ["Invoice"; "number"; "total"; "amount"; "due"]%string;
     PdfAnalyzer.get_text_text := str_of "Invoice number total amount due";
     PdfAnalyzer.get_images := [];
     PdfAnalyzer.rect := (595, 842) |}.

Definition scan_page : PdfAnalyzer.Page :=
  {| PdfAnalyzer.get_text_words := [];
     PdfAnalyzer.get_text_text := [];
     PdfAnalyzer.get_images := [Some [(595, 842)]];
     PdfAnalyzer.rect := (595, 842) |}.

Definition blank_page : PdfAnalyzer.Page :=
  {| PdfAnalyzer.get_text_words := [];
     PdfAnalyzer.get_text_text := [];
     PdfAnalyzer.get_images := [];
     PdfAnalyzer.rect := (595, 842) |}.

(** A scan whose text layer is two replacement characters. *)
Definition garbled_scan : PdfAnalyzer.Page :=
  {| PdfAnalyzer.get_text_words := [[REPLACEMENT_CHARACTER; REPLACEMENT_CHARACTER]];
     PdfAnalyzer.get_text_text := [REPLACEMENT_CHARACTER; REPLACEMENT_CHARACTER];
     PdfAnalyzer.get_images := [Some [(595, 842)]];
     PdfAnalyzer.rect := (595, 842) |}.

(** The same text layer on a page without images. *)
Definition garbled_page : PdfAnalyzer.Page :=
  {| PdfAnalyzer.get_text_words := [[REPLACEMENT_CHARACTER; REPLACEMENT_CHARACTER]];
     PdfAnalyzer.get_text_text := [REPLACEMENT_CHARACTER; REPLACEMENT_CHARACTER];
     PdfAnalyzer.get_images := [];
     PdfAnalyzer.rect := (595, 842) |}.

(** A scan whose text layer is 41 letters, each a word of its own:
    81 characters, all words shorter than two characters. *)
Definition spaced_letters : PdfAnalyzer.Page :=
  {| PdfAnalyzer.get_text_words := repeat (str_of "a") 41;
     PdfAnalyzer.get_text_text := join [SPACE] (repeat (str_of "a") 41);
     PdfAnalyzer.get_images := [Some [(595, 842)]];
     PdfAnalyzer.rect := (595, 842) |}.

Definition analysed (p : PdfAnalyzer.Page) : PdfAnalyzer.PageAnalysis :=
  PdfAnalyzer._analyze_page (U := basic_latin) p 1.

(** One page of each type. *)
Definition three_way_split : list PdfAnalyzer.PageAnalysis :=
  [analysed text_page; analysed scan_page; analysed blank_page].

End Samples.

Section PdfAnalyzerVocabulary.
Import PdfAnalyzer.
Local Open Scope Q_scope.

(** The figures the claims speak of, read off a page as the code does. *)
Definition valid_word_count (page : Page) : nat :=
  List.length
    (List.filter (fun w => (MIN_CHARS_FOR_VALID_WORD <=? List.length w)%nat)
                 (get_text_words page)).

Definition text_is_read (page : Page) : bool :=
  negb ((valid_word_count page =? 0)%nat
        && (0 <? List.length (get_images page))%nat).

(** Replacement characters of a text over its non-whitespace characters,
    floor 1. *)
Definition replacement_ratio (text : str) : Q :=
  ratio_of (count_if (char_eqb REPLACEMENT_CHARACTER) text)
           (Nat.max (count_if (fun c => negb (isspace c)) text) 1).

Definition block_char_count (page : Page) : nat :=
  List.length (strip (get_text_text page)).

Definition block_letter_ratio {U : UnicodeData} (page : Page) : Q :=
  let stripped := strip (get_text_text page) in
  ratio_of (count_if is_letter stripped)
           (Nat.max (count_if (fun c => negb (isspace c)) stripped) 1).

(** [has_text] as the two-clause rule reads, on the figures of the block. *)
Definition has_text_rule {U : UnicodeData} (page : Page) : bool :=
  (5 <=? valid_word_count page)%nat
  || ((80 <=? block_char_count page)%nat
      && Qleb 0.40 (block_letter_ratio page)).

End PdfAnalyzerVocabulary.

(** A token with text [s], horizontal centre [x] and vertical centre [y],
    16 units wide and high. *)
Definition token (s : string) (x y : Q) : TableParser.OCRToken :=
  {| TableParser.text := str_of s;
     TableParser.ocr_confidence := 0.99;
     TableParser.bbox := (x - 8, y - 8, x + 8, y + 8)%Q;
     TableParser.center_x := x;
     TableParser.center_y := y |}.

(** The row "Widget 3 10.00 30.00" at height [y], for a page 100 wide. *)
Definition widget_row (y : Q) : list TableParser.OCRToken :=
  [token "Widget" 10 y; token "3" 40 y; token "10.00" 60 y; token "30.00" 90 y].

(** [InvoiceItem(description="Widget", quantity=3, unit_price=10.00,
    total_price=30.00, confidence=0.95)] *)
Definition widget_item : TableParser.InvoiceItem :=
  {| TableParser.description := str_of "Widget";
     TableParser.quantity := 3;
     TableParser.unit_price := 10.00;
     TableParser.total_price := 30.00;
     TableParser.confidence := 0.95 |}.

(** A row that names the tax, with the same figures. *)
Definition kdv_row : list TableParser.OCRToken :=
  [token "KDV" 10 20; token "3" 40 20; token "10.00" 60 20; token "30.00" 90 20].

(** A row with a fractional quantity. *)
Definition fractional_row : list TableParser.OCRToken :=
  [token "Widget" 10 20; token "2,5" 40 20; token "10.00" 60 20; token "25.00" 90 20].

(** What a run of short lines leaves in the buffer of the line merger. *)
Definition buffered (shorts : list str) : str :=
  List.concat (List.map strip shorts).

(** The line emitted for [line] when the buffer holds [buffer]. *)
Definition emitted (buffer line : str) : str :=
  match buffer with
  | [] => strip line
  | _ :: _ => buffer ++ [SPACE] ++ strip line
  end.

(** A word as [split] gives them: not empty, no whitespace. *)
Definition word_like (w : str) : bool :=
  negb (is_nil w) && forallb (fun c => negb (isspace c)) w.

(** The words [ws] are settled for [ratio]: a word resembles (ratio above
    0.85) itself and no other word of [ws]. *)
Definition settled (ratio : str -> str -> Q) (ws : list str) : bool :=
  forallb
    (fun w1 =>
       forallb (fun w2 => Bool.eqb (Qltb 0.85 (ratio w1 w2)) (str_eqb w1 w2)) ws)
    ws.

(** Every canonical form is a word of [keys]. *)
Definition values_in (keys : list str) (canonical : gmap (list N) (list N)) : Prop :=
  forall k v, canonical !! k = Some v -> In v keys.

(** Every canonical form is its own word. *)
Definition own_values (canonical : gmap (list N) (list N)) : Prop :=
  forall k v, canonical !! k = Some v -> v = k.

(** Three spellings of one word, and the text after one and after two
    normalisations. *)
Definition three_spellings : str := str_of "lnvoice Invoice Invoicc".
Definition three_spellings_once : str := str_of "lnvoice Invoice Invoice".
Definition three_spellings_twice : str := str_of "Invoice Invoice Invoice".

(** A text with a short line to merge and no two words alike. *)
Definition widget_lines : str :=
  str_of "Widget 3" ++ [10%N] ++ str_of "x" ++ [10%N] ++ str_of "10.00 30.00".
Definition widget_line : str := str_of "Widget 3 x 10.00 30.00".

(* ================================================================== *)
(** * Properties *)
(* ================================================================== *)

(** ** Rational comparisons *)

Lemma Qleb_le a b : Qleb a b = true <-> (a <= b)%Q.
Proof. apply Qle_bool_iff. Qed.

Lemma Qltb_lt a b : Qltb a b = true <-> (a < b)%Q.
Proof.
  unfold Qltb. rewrite negb_true_iff. split.
  - intros H. apply Qnot_le_lt. intros Hle.
    apply Qle_bool_iff in Hle. congruence.
  - intros H. destruct (Qle_bool b a) eqn:E; [|reflexivity].
    apply Qle_bool_iff in E. exfalso. exact (Qlt_not_le _ _ H E).
Qed.

Lemma Qltb_ge a b : Qltb a b = false <-> (b <= a)%Q.
Proof.
  unfold Qltb. rewrite negb_false_iff. apply Qle_bool_iff.
Qed.


Lemma Qleb_gt a b : Qleb a b = false <-> (b < a)%Q.
Proof.
  rewrite <- Qltb_lt. unfold Qltb, Qleb. now rewrite negb_true_iff.
Qed.

Ltac q_true := vm_compute; solve [reflexivity | intro; discriminate].

Ltac q_false :=
  let H := fresh in
  intro H; vm_compute in H;
  first [discriminate H | exfalso; apply H; reflexivity].

(** ** The document classifier *)

Section DocumentClassifier.
Import PdfAnalyzer.
Local Open Scope Q_scope.

Lemma Qltb_false_of_not_lt a b : ~ a < b -> Qltb a b = false.
Proof.
  intros H. destruct (Qltb a b) eqn:E; [|reflexivity].
  apply Qltb_lt in E. contradiction.
Qed.

Lemma Qleb_false_of_lt a b : b < a -> Qleb a b = false.
Proof.
  intros H. destruct (Qleb a b) eqn:E; [|reflexivity].
  apply Qleb_le in E. exfalso. exact (Qlt_not_le _ _ H E).
Qed.

(** C1, as the code has it.  On a non-empty page list that passes rules 1 to
    4 (not all pages Broken, Broken fraction not above one half, Text
    fraction below one half, Image fraction below one half) the document is
    Text when there are more Text than Image pages, and Image otherwise; in
    particular equal Text and Image counts give Image. *)
Theorem determine_pdf_type_mixed (pages : list PageAnalysis) :
  pages <> [] ->
  count_type Broken pages <> List.length pages ->
  ~ 0.5 < ratio_of (count_type Broken pages) (List.length pages) ->
  ratio_of (count_type Text pages) (List.length pages) < 0.5 ->
  ratio_of (count_type Image pages) (List.length pages) < 0.5 ->
  (count_type Image pages < count_type Text pages
     -> _determine_pdf_type pages = Text)%nat
  /\ (count_type Text pages < count_type Image pages
     -> _determine_pdf_type pages = Image)%nat
  /\ (count_type Text pages = count_type Image pages
     -> _determine_pdf_type pages = Image).
Proof.
  intros Hne Hall Hbroken Htext Himage.
  assert (E : _determine_pdf_type pages
              = if (count_type Image pages <? count_type Text pages)%nat
                then Text else Image).
  { unfold _determine_pdf_type. destruct pages as [|p ps]; [congruence|].
    cbv zeta.
    apply Nat.eqb_neq in Hall. rewrite Hall.
    rewrite (Qltb_false_of_not_lt _ _ Hbroken).
    rewrite (Qleb_false_of_lt _ _ Htext).
    rewrite (Qleb_false_of_lt _ _ Himage).
    reflexivity. }
  rewrite E. repeat split; intros H.
  - apply Nat.ltb_lt in H. now rewrite H.
  - assert (H' : (count_type Image pages <? count_type Text pages)%nat = false)
      by (apply Nat.ltb_ge; lia).
    now rewrite H'.
  - assert (H' : (count_type Image pages <? count_type Text pages)%nat = false)
      by (apply Nat.ltb_ge; lia).
    now rewrite H'.
Qed.

(** The rule at one Text, one Image and one Broken page. *)
Lemma determine_pdf_type_mixed_witness :
  count_type Text Samples.three_way_split = count_type Image Samples.three_way_split
  /\ _determine_pdf_type Samples.three_way_split = Image.
Proof.
  split; [reflexivity|].
  apply (determine_pdf_type_mixed Samples.three_way_split).
  - discriminate.
  - vm_compute. lia.
  - q_false.
  - q_true.
  - q_true.
  - reflexivity.
Defined.

(** C1, as the claim words it, fails on one Text, one Image and one Broken
    page: no rule of 1 to 4 applies, the Text and Image counts are equal,
    and the document is Image, not Text. *)
Lemma determine_pdf_type_tie_counterexample :
  let pages := Samples.three_way_split in
  pages <> []
  /\ count_type Broken pages <> List.length pages
  /\ ~ 0.5 < ratio_of (count_type Broken pages) (List.length pages)
  /\ ratio_of (count_type Text pages) (List.length pages) < 0.5
  /\ ratio_of (count_type Image pages) (List.length pages) < 0.5
  /\ count_type Text pages = count_type Image pages
  /\ _determine_pdf_type pages <> Text.
Proof.
  cbv zeta. repeat split.
  - discriminate.
  - vm_compute. lia.
  - q_false.
  - vm_compute. discriminate.
Qed.

Lemma determine_pdf_type_nonempty (pages : list PageAnalysis) :
  _determine_pdf_type pages <> Broken -> (List.length pages =? 0)%nat = false.
Proof.
  destruct pages as [|p ps]; [intros H; now contradiction H | reflexivity].
Qed.

(** C9.  The confidence that goes with the document type is 0 when the type
    is Broken and otherwise the number of pages of that type over the number
    of pages, a quotient that is then defined; no pages give Broken and 0. *)
Theorem confidence_is_matching_fraction (pages : list PageAnalysis) :
  exists c : Q,
    _calculate_confidence pages (_determine_pdf_type pages) = Ok c
    /\ (_determine_pdf_type pages = Broken -> c == 0)
    /\ (_determine_pdf_type pages <> Broken ->
          (0 < List.length pages)%nat
          /\ c == inject_Z (Z.of_nat (count_type (_determine_pdf_type pages) pages))
                  / inject_Z (Z.of_nat (List.length pages)))
    /\ (pages = [] -> _determine_pdf_type pages = Broken /\ c == 0).
Proof.
  destruct (_determine_pdf_type pages) eqn:E.
  - assert (Hn : (List.length pages =? 0)%nat = false)
      by (apply determine_pdf_type_nonempty; congruence).
    unfold _calculate_confidence. rewrite Hn. eexists. split; [reflexivity|].
    split; [discriminate|]. split.
    + intros _. apply Nat.eqb_neq in Hn. split; [lia|reflexivity].
    + intros ->. discriminate.
  - assert (Hn : (List.length pages =? 0)%nat = false)
      by (apply determine_pdf_type_nonempty; congruence).
    unfold _calculate_confidence. rewrite Hn. eexists. split; [reflexivity|].
    split; [discriminate|]. split.
    + intros _. apply Nat.eqb_neq in Hn. split; [lia|reflexivity].
    + intros ->. discriminate.
  - exists 0.0. split; [reflexivity|]. split; [reflexivity|].
    split; [congruence|]. intros _. split; reflexivity.
Qed.

(** The document of 6 Text, 3 Image and 1 Broken pages is Text with
    confidence 6/10; a document of Broken pages only has confidence 0. *)
Example confidence_six_of_ten :
  let pages := repeat (Samples.analysed Samples.text_page) 6
               ++ repeat (Samples.analysed Samples.scan_page) 3
               ++ [Samples.analysed Samples.blank_page] in
  _determine_pdf_type pages = Text
  /\ exists c, _calculate_confidence pages Text = Ok c /\ c == 0.6.
Proof.
  split; [reflexivity|]. eexists. split; [reflexivity|]. reflexivity.
Qed.

(** The full [analyze], though, does not return on a document without pages:
    the averages of [_build_details] divide by the page count. *)
Remark analyze_no_pages (U : UnicodeData) :
  analyze [] = Raise ZeroDivisionError.
Proof. reflexivity. Qed.

End DocumentClassifier.

(** ** The page classifier *)

Section PageClassifier.
Import PdfAnalyzer.
Context {U : UnicodeData}.
Local Open Scope Q_scope.

(** When the text block is read, the analysis carries the figures of the
    block. *)
Lemma analyze_page_read (page : Page) (n : nat) :
  text_is_read page = true ->
  let pa := _analyze_page page n in
  char_count pa = block_char_count page
  /\ letter_ratio pa = block_letter_ratio page
  /\ has_text pa = has_text_rule page
  /\ (is_garbled pa, garbled_reasons pa)
     = _is_text_garbled (get_text_text page) (get_text_words page)
         (List.filter (fun w => (MIN_CHARS_FOR_VALID_WORD <=? List.length w)%nat)
                      (get_text_words page))
         (block_char_count page) (valid_word_count page) (block_letter_ratio page)
  /\ page_type pa = _classify_page (has_text pa) (has_images pa) (is_garbled pa).
Proof.
  unfold text_is_read, valid_word_count. intros Hread.
  apply negb_true_iff in Hread.
  unfold _analyze_page. cbv zeta. rewrite Hread.
  destruct (_is_text_garbled _ _ _ _ _ _) as [g r] eqn:E.
  cbn [char_count letter_ratio has_text is_garbled garbled_reasons page_type has_images].
  repeat split; try reflexivity.
Qed.

(** When it is skipped, they are those of an empty block. *)
Lemma analyze_page_skipped (page : Page) (n : nat) :
  text_is_read page = false ->
  let pa := _analyze_page page n in
  has_text pa = false /\ is_garbled pa = false /\ garbled_reasons pa = []
  /\ page_type pa = Image.
Proof.
  unfold text_is_read, valid_word_count. intros Hskip.
  apply negb_false_iff in Hskip.
  unfold _analyze_page. cbv zeta. rewrite Hskip.
  apply andb_prop in Hskip as [Hw Hi]. rewrite Hi.
  apply Nat.eqb_eq in Hw. rewrite Hw.
  cbn. repeat split; reflexivity.
Qed.

(** Stripping removes whitespace only. *)
Lemma count_if_lstrip (p : char -> bool) (s : str) :
  (forall c, p c = true -> isspace c = false) ->
  count_if p (lstrip s) = count_if p s.
Proof.
  intros Hp. induction s as [|c s IH]; [reflexivity|].
  cbn [lstrip]. destruct (isspace c) eqn:Ec; [|reflexivity].
  rewrite IH. unfold count_if. cbn [List.filter].
  destruct (p c) eqn:Epc; [|reflexivity].
  apply Hp in Epc. congruence.
Qed.

Lemma count_if_rev {A} (p : A -> bool) (l : list A) :
  count_if p (rev l) = count_if p l.
Proof. unfold count_if. now rewrite filter_rev, length_rev. Qed.

Lemma count_if_strip (p : char -> bool) (s : str) :
  (forall c, p c = true -> isspace c = false) ->
  count_if p (strip s) = count_if p s.
Proof.
  intros Hp. unfold strip, rstrip.
  now rewrite count_if_rev, count_if_lstrip, count_if_rev, count_if_lstrip.
Qed.

Lemma replacement_ratio_strip (text : str) :
  replacement_ratio (strip text) = replacement_ratio text.
Proof.
  unfold replacement_ratio. rewrite !count_if_strip; [reflexivity| |].
  - intros c Hc. now apply negb_true_iff.
  - intros c Hc. unfold char_eqb in Hc. apply N.eqb_eq in Hc. now subst c.
Qed.

Lemma is_text_garbled_replacement_hard
    (text : str) (raw_words valid_words : list str) (cc wc : nat) (lr : Q) :
  REPLACEMENT_HARD <= replacement_ratio text ->
  _is_text_garbled text raw_words valid_words cc wc lr
  = (true, ["replacement_hard"%string]).
Proof.
  intros H. rewrite <- replacement_ratio_strip in H.
  unfold _is_text_garbled. destruct (strip text) as [|c t] eqn:E.
  - exfalso. revert H. q_false.
  - cbv zeta. apply Qleb_le in H. unfold replacement_ratio in H.
    now rewrite H.
Qed.

(** C2, as the code has it.  A page whose text has a replacement-character
    ratio of at least 0.05, and whose text is read at all (it has a word of
    two characters or more, or no image), is garbled for the one reason
    "replacement_hard" and never Text; it is Broken when [has_text] holds or
    it has no image, and Image when [has_text] fails and it has an image. *)
Theorem replacement_hard_page (page : Page) (n : nat) :
  REPLACEMENT_HARD <= replacement_ratio (get_text_text page) ->
  text_is_read page = true ->
  is_garbled (_analyze_page page n) = true
  /\ garbled_reasons (_analyze_page page n) = ["replacement_hard"%string]
  /\ page_type (_analyze_page page n)
     = if has_text (_analyze_page page n) || negb (has_images (_analyze_page page n))
       then Broken else Image.
Proof.
  intros Hratio Hread.
  destruct (analyze_page_read page n Hread) as (_ & _ & _ & Hg & Hty).
  rewrite (is_text_garbled_replacement_hard _ _ _ _ _ _ Hratio) in Hg.
  injection Hg as Hg Hr. rewrite Hty, Hg, Hr.
  repeat split.
  unfold _classify_page.
  destruct (has_text _), (has_images _); reflexivity.
Qed.

(** C3, as the code has it.  [has_text] holds exactly when the text block is
    read (the page has a word of two characters or more, or no image) and
    the two-clause rule holds of the figures of the block; on a page with no
    such word and at least one image it is false. *)
Theorem has_text_iff (page : Page) (n : nat) :
  has_text (_analyze_page page n) = true
  <-> text_is_read page = true
      /\ ((5 <= valid_word_count page)%nat
          \/ ((80 <= block_char_count page)%nat
              /\ 0.40 <= block_letter_ratio page)).
Proof.
  destruct (text_is_read page) eqn:Hread.
  - destruct (analyze_page_read page n Hread) as (_ & _ & Hh & _).
    rewrite Hh. unfold has_text_rule.
    rewrite orb_true_iff, andb_true_iff, Nat.leb_le, Nat.leb_le, Qleb_le.
    tauto.
  - destruct (analyze_page_skipped page n Hread) as (Hh & _).
    rewrite Hh. split; [discriminate|]. intros [H _]. discriminate H.
Qed.

End PageClassifier.

Section PageClassifierExamples.
Import PdfAnalyzer.
Local Open Scope Q_scope.

(** On a page without images the rule gives Broken. *)
Lemma replacement_hard_page_witness :
  page_type (Samples.analysed Samples.garbled_page) = Broken.
Proof.
  unfold Samples.analysed.
  destruct (replacement_hard_page (U := basic_latin) Samples.garbled_page 1)
    as (_ & _ & H).
  - q_true.
  - reflexivity.
  - rewrite H. reflexivity.
Defined.

(** C2, as the claim words it, fails on a scan whose text layer is two
    replacement characters: the ratio is 1, the page is garbled for
    "replacement_hard", and yet it is Image, since [has_text] fails and the
    page has an image. *)
Lemma replacement_hard_counterexample :
  let pa := Samples.analysed Samples.garbled_scan in
  REPLACEMENT_HARD
    <= replacement_ratio (get_text_text Samples.garbled_scan)
  /\ is_garbled pa = true
  /\ garbled_reasons pa = ["replacement_hard"%string]
  /\ page_type pa = Image
  /\ page_type pa <> Broken.
Proof.
  cbv zeta. split; [q_true|]. repeat split. discriminate.
Qed.

(** C3, as the claim words it, fails on a scan whose text layer is 41
    one-letter words: the block has 81 characters, all letters or spaces, so
    the two-clause rule holds of it, but the block is never read and
    [has_text] is false. *)
Lemma has_text_counterexample :
  valid_word_count Samples.spaced_letters = 0%nat
  /\ (0 < List.length (get_images Samples.spaced_letters))%nat
  /\ (80 <= block_char_count Samples.spaced_letters)%nat
  /\ 0.40 <= block_letter_ratio (U := basic_latin) Samples.spaced_letters
  /\ has_text_rule (U := basic_latin) Samples.spaced_letters = true
  /\ has_text (Samples.analysed Samples.spaced_letters) = false.
Proof.
  split; [reflexivity|]. split; [vm_compute; lia|].
  split; [vm_compute; lia|]. split; [q_true|]. split; reflexivity.
Qed.

End PageClassifierExamples.

(** ** The line merger *)

Section LineMerger.
Import OcrNormalizer.

Lemma merge_loop_merged (lines merged : list str) (buffer : str) :
  merge_loop lines merged buffer
  = (merged ++ fst (merge_loop lines [] buffer),
     snd (merge_loop lines [] buffer)).
Proof.
  revert merged buffer.
  induction lines as [|line rest IH]; intros merged buffer; cbn [merge_loop].
  - cbn. now rewrite app_nil_r.
  - destruct (List.length (strip line) <=? 2)%nat.
    + apply IH.
    + destruct buffer as [|b buffer].
      * rewrite (IH (merged ++ _)), (IH ([] ++ _)). cbn [fst snd].
        now rewrite <- app_assoc.
      * rewrite (IH (merged ++ _)), (IH ([] ++ _)). cbn [fst snd].
        now rewrite <- app_assoc.
Qed.

Lemma merge_loop_shorts (shorts rest merged : list str) (buffer : str) :
  Forall (fun line => (List.length (strip line) <= 2)%nat) shorts ->
  merge_loop (shorts ++ rest) merged buffer
  = merge_loop rest merged (buffer ++ buffered shorts).
Proof.
  intros H. revert buffer.
  induction H as [|line shorts Hline _ IH]; intros buffer.
  - cbn. now rewrite app_nil_r.
  - cbn [app merge_loop]. apply Nat.leb_le in Hline. rewrite Hline.
    rewrite IH. unfold buffered. cbn [List.map List.concat].
    now rewrite app_assoc.
Qed.

(** C5.  A run of lines of trimmed length at most 2 emits nothing by itself:
    the trimmed lines gather in the buffer.  If the input ends there, the
    buffer, when not empty, is the one and last line of the output.  If a
    line of trimmed length above 2 follows, the output starts with that line
    trimmed, prefixed by the buffer and a space when the buffer is not empty,
    and goes on with the merge of the lines after it, the buffer empty
    again. *)
Theorem merge_broken_lines_walk (shorts : list str) :
  Forall (fun line => (List.length (strip line) <= 2)%nat) shorts ->
  _merge_broken_lines shorts
  = match buffered shorts with [] => [] | _ :: _ => [buffered shorts] end
  /\ forall (long : str) (rest : list str),
       (2 < List.length (strip long))%nat ->
       _merge_broken_lines (shorts ++ long :: rest)
       = emitted (buffered shorts) long :: _merge_broken_lines rest.
Proof.
  intros Hshorts. split.
  - unfold _merge_broken_lines.
    rewrite <- (app_nil_r shorts) at 1.
    rewrite (merge_loop_shorts _ _ _ _ Hshorts). cbn.
    now destruct (buffered shorts).
  - intros long rest Hlong. unfold _merge_broken_lines.
    rewrite (merge_loop_shorts _ _ _ _ Hshorts). cbn [app merge_loop].
    assert (E : (List.length (strip long) <=? 2)%nat = false)
      by (apply Nat.leb_gt; lia).
    rewrite E. unfold emitted.
    destruct (buffered shorts) as [|b buffer];
      rewrite merge_loop_merged;
      destruct (merge_loop rest [] []) as [merged buffer'];
      cbn [fst snd app]; now destruct buffer'.
Qed.

(** Two short lines, a long one, and a short one left over. *)
Lemma merge_broken_lines_walk_witness :
  _merge_broken_lines [str_of "S"; str_of " u "; str_of "le 12"; str_of "x"]
  = [str_of "Su le 12"; str_of "x"].
Proof.
  assert (Hshorts : Forall (fun line => (List.length (strip line) <= 2)%nat)
                           [str_of "S"; str_of " u "])
    by (repeat constructor).
  assert (Hlong : (2 < List.length (strip (str_of "le 12")))%nat)
    by (vm_compute; lia).
  exact (proj2 (merge_broken_lines_walk _ Hshorts) (str_of "le 12") [str_of "x"] Hlong).
Defined.

End LineMerger.

(** ** The table parser *)

Section TableParserFacts.
Import TableParser.
Context {U : UnicodeData}.
Local Open Scope Q_scope.

(** What it takes for a row to become an item, and what the item is. *)
Lemma parse_row_item (row : list OCRToken) (page_width : Q) (item : InvoiceItem) :
  _parse_row row page_width = Ok (Some item) <->
  exists cols,
    is_header row = false
    /\ fill_cols page_width no_cols row = Ok cols
    /\ desc cols <> [] /\ unit cols <> [] /\ total cols <> []
    /\ (0 < _safe_number (qty cols) 1%Z int_cast)%Z
    /\ 0 < _safe_number (unit cols) 0.0 float_cast
    /\ 0 < _safe_number (total cols) 0.0 float_cast
    /\ item
       = {| description :=
              replace ZERO_RUN URUN (replace ORUN URUN (join [SPACE] (desc cols)));
            quantity := _safe_number (qty cols) 1%Z int_cast;
            unit_price := _safe_number (unit cols) 0.0 float_cast;
            total_price := _safe_number (total cols) 0.0 float_cast;
            confidence :=
              if Qltb (Qabs (inject_Z (_safe_number (qty cols) 1%Z int_cast)
                             * _safe_number (unit cols) 0.0 float_cast
                             - _safe_number (total cols) 0.0 float_cast)) 1
              then 0.95 else 0.85 |}.
Proof.
  unfold _parse_row. destruct (is_header row).
  { split; [discriminate|]. intros (cols & H & _). discriminate H. }
  destruct (fill_cols page_width no_cols row) as [cols|e]; cbn [bind].
  2:{ split; [discriminate|]. intros (cols & _ & H & _). discriminate H. }
  destruct (is_nil (desc cols) || is_nil (unit cols) || is_nil (total cols)) eqn:Enil.
  { split; [discriminate|]. intros (cols' & _ & H & Hd & Hu & Ht & _).
    injection H as <-. exfalso.
    destruct (desc cols); [now apply Hd|].
    destruct (unit cols); [now apply Hu|].
    destruct (total cols); [now apply Ht|]. discriminate Enil. }
  apply orb_false_iff in Enil as [Enil Ht].
  apply orb_false_iff in Enil as [Hd Hu].
  destruct ((_safe_number (qty cols) 1%Z int_cast <=? 0)%Z
            || Qleb (_safe_number (unit cols) 0.0 float_cast) 0
            || Qleb (_safe_number (total cols) 0.0 float_cast) 0) eqn:Epos.
  { split; [discriminate|].
    intros (cols' & _ & H & _ & _ & _ & Hq & Hup & Htp & _).
    injection H as <-. exfalso.
    apply orb_true_iff in Epos as [Epos|Epos];
      [apply orb_true_iff in Epos as [Epos|Epos]|].
    - apply Z.leb_le in Epos. lia.
    - apply Qleb_le in Epos. exact (Qlt_not_le _ _ Hup Epos).
    - apply Qleb_le in Epos. exact (Qlt_not_le _ _ Htp Epos). }
  apply orb_false_iff in Epos as [Epos Htp].
  apply orb_false_iff in Epos as [Hq Hup].
  split.
  - intros H. injection H as <-. exists cols.
    split; [reflexivity|]. split; [reflexivity|].
    split; [intros E; now rewrite E in Hd|].
    split; [intros E; now rewrite E in Hu|].
    split; [intros E; now rewrite E in Ht|].
    split; [apply Z.leb_gt in Hq; lia|].
    split; [now apply Qleb_gt|].
    split; [now apply Qleb_gt|].
    reflexivity.
  - intros (cols' & _ & H & _ & _ & _ & _ & _ & _ & ->).
    now injection H as <-.
Qed.

(** C6.  The confidence of an item is 0.95 when quantity times unit price
    is less than 1 away from the total, and 0.85 when it is not; an item
    never carries another confidence. *)
Theorem parse_row_confidence (row : list OCRToken) (page_width : Q)
    (item : InvoiceItem) :
  _parse_row row page_width = Ok (Some item) ->
  (Qabs (inject_Z (quantity item) * unit_price item - total_price item) < 1
   /\ confidence item = 0.95)
  \/ (~ Qabs (inject_Z (quantity item) * unit_price item - total_price item) < 1
      /\ confidence item = 0.85).
Proof.
  intros H. apply parse_row_item in H as (cols & _ & _ & _ & _ & _ & _ & _ & _ & ->).
  cbn [quantity unit_price total_price confidence].
  destruct (Qltb _ 1) eqn:E.
  - left. split; [now apply Qltb_lt|reflexivity].
  - right. split; [|reflexivity]. intros Hlt. apply Qltb_lt in Hlt. congruence.
Qed.

(** C8.  A row whose lower-cased joined text contains a header keyword
    gives no item, whatever its columns hold and whatever the page width. *)
Theorem header_row_dropped (row : list OCRToken) (page_width : Q) (k : str) :
  In k HEADER_KEYWORDS ->
  contains k (text_joined row) = true ->
  _parse_row row page_width = Ok None.
Proof.
  intros Hk Hin. unfold _parse_row.
  assert (E : is_header row = true).
  { unfold is_header. apply existsb_exists. exists k. now split. }
  now rewrite E.
Qed.

(** [s.replace(",", ".")] changes the commas one by one. *)
Lemma replace_comma (s : str) :
  replace (str_of ",") (str_of ".") s
  = List.map (fun c => if (c =? 44)%N then 46%N else c) s.
Proof.
  unfold replace. change (str_of ",") with [44%N]. change (str_of ".") with [46%N].
  induction s as [|c s IH]; [reflexivity|].
  cbn [replace_from startswith List.map List.length Nat.sub app].
  unfold char_eqb. rewrite andb_true_r, (N.eqb_sym 44 c), IH.
  now destruct (c =? 44)%N.
Qed.

Lemma digits_fold_None (s : str) :
  fold_left
    (fun acc c =>
       match acc, decimal c with
       | Some v, Some d => Some (10 * v + d)%Z
       | _, _ => None
       end) s None = None.
Proof. induction s as [|c s IH]; [reflexivity|exact IH]. Qed.

Lemma digits_value_non_digit (s : str) (c : char) :
  In c s -> decimal c = None -> digits_value s = None.
Proof.
  unfold digits_value. generalize (Some 0%Z) as acc.
  induction s as [|c' s IH]; intros acc Hin Hc; [contradiction|].
  cbn [fold_left]. destruct Hin as [->|Hin].
  - rewrite Hc. destruct acc; apply digits_fold_None.
  - now apply IH.
Qed.

(** [int] rejects a matched number that has a decimal separator. *)
Lemma int_cast_fractional (num : str) :
  In 46%N num \/ In 44%N num ->
  int_cast (replace (str_of ",") (str_of ".") num) = None.
Proof.
  intros H. rewrite replace_comma.
  assert (Hin : In 46%N (List.map (fun c => if (c =? 44)%N then 46%N else c) num)).
  { apply in_map_iff. destruct H as [H|H]; [exists 46%N|exists 44%N]; now split. }
  unfold int_cast.
  destruct (List.map _ num) as [|c s] eqn:E; [reflexivity|].
  apply (digits_value_non_digit _ 46%N Hin). exact decimal_full_stop.
Qed.

(** C10.  When the first number matched in the quantity column has a decimal
    separator, the integer cast fails and the quantity is the default 1.  The
    quantity then never has the row dropped: every item the row gives has
    quantity 1, and the row gives an item as soon as it is no header, has
    description, unit-price and total columns, and positive unit price and
    total. *)
Theorem fractional_quantity_defaults (row : list OCRToken) (page_width : Q)
    (cols : Cols) (num : str) (nums : list str) :
  fill_cols page_width no_cols row = Ok cols ->
  findall (join [SPACE] (qty cols)) = num :: nums ->
  In 46%N num \/ In 44%N num ->
  int_cast (replace (str_of ",") (str_of ".") num) = None
  /\ _safe_number (qty cols) 1%Z int_cast = 1%Z
  /\ (forall item,
        _parse_row row page_width = Ok (Some item) -> quantity item = 1%Z)
  /\ (is_header row = false ->
      desc cols <> [] -> unit cols <> [] -> total cols <> [] ->
      0 < _safe_number (unit cols) 0.0 float_cast ->
      0 < _safe_number (total cols) 0.0 float_cast ->
      exists item,
        _parse_row row page_width = Ok (Some item) /\ quantity item = 1%Z).
Proof.
  intros Hcols Hnums Hsep.
  pose proof (int_cast_fractional num Hsep) as Hcast.
  assert (Hq : _safe_number (qty cols) 1%Z int_cast = 1%Z).
  { unfold _safe_number. now rewrite Hnums, Hcast. }
  split; [exact Hcast|]. split; [exact Hq|]. split.
  - intros item H.
    apply parse_row_item in H as (cols' & _ & H & _ & _ & _ & _ & _ & _ & ->).
    rewrite Hcols in H. injection H as <-. exact Hq.
  - intros Hh Hd Hu Ht Hup Htp. eexists. split.
    + apply parse_row_item. exists cols.
      repeat (split; [eassumption|]).
      split; [rewrite Hq; lia|]. repeat (split; [eassumption|]). reflexivity.
    + cbn [quantity]. exact Hq.
Qed.

End TableParserFacts.

Section TableParserExamples.
Import TableParser.
Local Open Scope Q_scope.

Lemma Qltb_irrefl (y : Q) : Qltb y y = false.
Proof. apply Qltb_ge. apply Qle_refl. Qed.

Lemma near_itself (y : Q) : Qltb (Qabs (y - y)) 12 = true.
Proof.
  apply Qltb_lt. assert (E : y - y == 0) by ring. rewrite E. reflexivity.
Qed.

(** Four tokens at one height are one row, in the order given. *)
Lemma group_widget_row (y : Q) : _group_rows (widget_row y) 12 = [widget_row y].
Proof.
  unfold _group_rows, sorted, widget_row, token.
  repeat (progress (cbn [fold_left insert_sorted place_token center_y app];
                    rewrite ?Qltb_irrefl, ?near_itself)).
  reflexivity.
Qed.

(** C7.  The row "Widget", "3", "10.00", "30.00" at the horizontal centres
    10, 40, 60 and 90 of a page 100 wide, whatever its height on the page,
    parses to the one item
    [InvoiceItem("Widget", 3, 10.00, 30.00, 0.95)]. *)
Theorem parse_widget_row (y : Q) :
  parse (U := basic_latin) (widget_row y) 100 = Ok [widget_item].
Proof.
  unfold parse. rewrite group_widget_row. vm_compute. reflexivity.
Qed.

Lemma parse_row_confidence_witness :
  _parse_row (U := basic_latin) (widget_row 20) 100 = Ok (Some widget_item)
  /\ confidence widget_item = 0.95.
Proof.
  assert (H : _parse_row (U := basic_latin) (widget_row 20) 100
              = Ok (Some widget_item)) by (vm_compute; reflexivity).
  split; [exact H|].
  destruct (parse_row_confidence (U := basic_latin) _ _ _ H) as [[_ E]|[_ E]];
    [exact E | discriminate E].
Defined.

(** The row of [widget_row] with "KDV" for a description gives no item. *)
Lemma header_row_dropped_witness :
  _parse_row (U := basic_latin) kdv_row 100 = Ok None.
Proof.
  apply (header_row_dropped (U := basic_latin) kdv_row 100 (str_of "kdv")).
  - vm_compute. tauto.
  - reflexivity.
Defined.

(** "2,5" in the quantity column: the item has quantity 1. *)
Lemma fractional_quantity_defaults_witness :
  exists item,
    _parse_row (U := basic_latin) fractional_row 100 = Ok (Some item)
    /\ quantity item = 1%Z.
Proof.
  refine (proj2 (proj2 (proj2
    (fractional_quantity_defaults (U := basic_latin) fractional_row 100
       {| desc := [str_of "Widget"]; qty := [str_of "2,5"];
          unit := [str_of "10.00"]; total := [str_of "25.00"] |}
       (str_of "2,5") [] _ _ _))) _ _ _ _ _ _);
    try reflexivity; try discriminate.
  right. vm_compute. tauto.
Defined.

End TableParserExamples.

(** ** The majority-vote normaliser *)

Section Normalizer.
Import OcrNormalizer.
Local Open Scope Q_scope.

Lemma str_eqb_eq (a b : str) : str_eqb a b = true <-> a = b.
Proof.
  revert b. induction a as [|x a IH]; intros [|y b]; cbn; try (split; congruence).
  unfold char_eqb. rewrite andb_true_iff, N.eqb_eq, IH.
  split; [intros [-> ->]; reflexivity | intros H; injection H; auto].
Qed.

Lemma str_eqb_refl (a : str) : str_eqb a a = true.
Proof. now apply str_eqb_eq. Qed.

(** *** Counter *)

Lemma counter_add_keys (w : str) (counter : list (str * nat)) :
  List.map fst (counter_add w counter)
  = if existsb (fun k => str_eqb k w) (List.map fst counter)
    then List.map fst counter else List.map fst counter ++ [w].
Proof.
  induction counter as [|[k n] counter IH]; [reflexivity|].
  cbn [counter_add List.map fst existsb].
  destruct (str_eqb k w); [reflexivity|]. cbn [orb List.map fst]. rewrite IH.
  now destruct (existsb _ _).
Qed.

Lemma existsb_str_eqb (w : str) (l : list str) :
  existsb (fun k => str_eqb k w) l = true <-> In w l.
Proof.
  rewrite existsb_exists. split.
  - intros (k & Hk & E). apply str_eqb_eq in E. now subst.
  - intros H. exists w. split; [exact H|apply str_eqb_refl].
Qed.

Lemma Counter_keys_from (words : list str) (counter : list (str * nat)) :
  NoDup (List.map fst counter) ->
  let counter' := fold_left (fun counter w => counter_add w counter) words counter in
  NoDup (List.map fst counter')
  /\ forall k, In k (List.map fst counter') <-> In k (List.map fst counter) \/ In k words.
Proof.
  revert counter. induction words as [|w words IH]; intros counter Hnd; cbn [fold_left].
  - split; [exact Hnd|]. intros k. cbn. tauto.
  - destruct (IH (counter_add w counter)) as [Hnd' Hin].
    + rewrite counter_add_keys.
      destruct (existsb _ _) eqn:E; [exact Hnd|].
      apply NoDup_app. split; [exact Hnd|].
      split; [|apply NoDup_singleton].
      intros k Hk Hk'. apply list_elem_of_In in Hk, Hk'.
      destruct Hk' as [<-|[]]. apply existsb_str_eqb in Hk. congruence.
    + split; [exact Hnd'|]. intros k. rewrite Hin, counter_add_keys.
      destruct (existsb _ _) eqn:E.
      * apply existsb_str_eqb in E. cbn. split; [tauto|].
        intros [H|[<-|H]]; tauto.
      * rewrite in_app_iff. cbn. tauto.
Qed.

Lemma Counter_keys (words : list str) :
  NoDup (List.map fst (Counter words))
  /\ forall k, In k (List.map fst (Counter words)) <-> In k words.
Proof.
  destruct (Counter_keys_from words [] ltac:(constructor)) as [H1 H2].
  split; [exact H1|]. intros k. rewrite (H2 k). cbn. tauto.
Qed.

(** *** max *)

Lemma max_from_In {A} (key : A -> nat) (best : A) (l : list A) :
  In (max_from key best l) (best :: l).
Proof.
  revert best. induction l as [|x l IH]; intros best; cbn [max_from].
  - now left.
  - destruct (key best <? key x)%nat.
    + right. apply IH.
    + destruct (IH best) as [H|H]; [now left|right; now right].
Qed.

Lemma max_by_In {A} (key : A -> nat) (l : list A) (x : A) :
  max_by key l = Ok x -> In x l.
Proof.
  destruct l as [|y l]; cbn [max_by]; [discriminate|].
  intros H. injection H as <-. apply max_from_In.
Qed.

(** *** The canonical map *)

Lemma lookup_fold_insert (group : list str) (winner : str)
    (canonical : gmap (list N) (list N)) (k : str) :
  fold_left (fun canonical g => <[g := winner]> canonical) group canonical !! k
  = if decide (k ∈ group) then Some winner else canonical !! k.
Proof.
  revert canonical. induction group as [|g group IH]; intros canonical.
  - cbn [fold_left]. destruct (decide _) as [H|_]; [|reflexivity].
    now apply elem_of_nil in H.
  - cbn [fold_left]. rewrite IH.
    destruct (decide (k ∈ group)) as [Hin|Hin];
      destruct (decide (k ∈ g :: group)) as [Hin'|Hin']; try reflexivity.
    + exfalso. apply Hin'. now right.
    + apply elem_of_cons in Hin' as [->|Hin']; [|contradiction].
      apply lookup_insert_eq.
    + apply lookup_insert_ne. intros ->. apply Hin'. now left.
Qed.

Section VoteValues.
Context {U : UnicodeData}.
Variable ratio : str -> str -> Q.

Lemma vote_step_values (counter : list (str * nat))
    (canonical canonical' : gmap (list N) (list N)) (w : str) :
  values_in (List.map fst counter) canonical ->
  vote_step ratio counter canonical w = Ok canonical' ->
  values_in (List.map fst counter) canonical'.
Proof.
  intros Hv. unfold vote_step. destruct (canonical !! w) eqn:Ew.
  - intros H. injection H as <-. exact Hv.
  - destruct (max_by _ _) as [winner|e] eqn:Emax; cbn [bind]; [|discriminate].
    intros H. injection H as <-. intros k v. rewrite lookup_fold_insert.
    destruct (decide _) as [_|_]; [|exact (Hv k v)].
    intros H. injection H as <-.
    apply max_by_In, filter_In in Emax. tauto.
Qed.

Lemma vote_loop_values (counter : list (str * nat)) (ws : list str)
    (canonical canonical' : gmap (list N) (list N)) :
  values_in (List.map fst counter) canonical ->
  vote_loop ratio counter canonical ws = Ok canonical' ->
  values_in (List.map fst counter) canonical'.
Proof.
  revert canonical. induction ws as [|w ws IH]; intros canonical Hv; cbn [vote_loop].
  - intros H. injection H as <-. exact Hv.
  - destruct (vote_step ratio counter canonical w) as [c1|e] eqn:E; cbn [bind];
      [|discriminate].
    apply IH. exact (vote_step_values _ _ _ _ Hv E).
Qed.

Lemma lookup_all_values (canonical : gmap (list N) (list N)) (keys words out : list str) :
  values_in keys canonical ->
  lookup_all canonical words = Ok out ->
  Forall (fun v => In v keys) out.
Proof.
  intros Hv. revert out. induction words as [|w words IH]; intros out; cbn [lookup_all].
  - intros H. injection H as <-. constructor.
  - destruct (canonical !! w) as [c|] eqn:E; [|discriminate].
    destruct (lookup_all canonical words) as [rest|e]; cbn [bind]; [|discriminate].
    intros H. injection H as <-. constructor; [exact (Hv _ _ E)|now apply IH].
Qed.

(** The vote only hands out words of its input. *)
Lemma majority_vote_words (words out : list str) :
  _majority_vote ratio words = Ok out -> Forall (fun v => In v words) out.
Proof.
  unfold _majority_vote.
  destruct (vote_loop ratio (Counter words) ∅ _) as [canonical|e] eqn:E;
    cbn [bind]; [|discriminate].
  intros H.
  assert (Hv : values_in (List.map fst (Counter words)) canonical).
  { eapply vote_loop_values; [|exact E].
    intros k v Hk.
    rewrite lookup_empty in Hk. discriminate. }
  pose proof (lookup_all_values _ _ _ _ Hv H) as Hall.
  eapply Forall_impl; [exact Hall|]. intros v. apply (proj2 (Counter_keys words)).
Qed.

End VoteValues.
(** *** split and join *)

Lemma split_from_word (w cur rest : str) :
  forallb (fun c => negb (isspace c)) w = true ->
  split_from cur (w ++ rest) = split_from (rev w ++ cur) rest.
Proof.
  revert cur. induction w as [|c w IH]; intros cur Hw; [reflexivity|].
  cbn [forallb] in Hw. apply andb_prop in Hw as [Hc Hw].
  apply negb_true_iff in Hc. cbn [app split_from]. rewrite Hc, IH by exact Hw.
  cbn [rev]. now rewrite <- app_assoc.
Qed.

Lemma word_like_cons (w : str) :
  word_like w = true ->
  exists c w', w = c :: w' /\ isspace c = false
               /\ forallb (fun c => negb (isspace c)) w = true.
Proof.
  unfold word_like. intros H. apply andb_prop in H as [Hn Hw].
  destruct w as [|c w']; [discriminate|]. exists c, w'.
  split; [reflexivity|]. split; [|exact Hw].
  cbn [forallb] in Hw. apply andb_prop in Hw as [Hc _]. now apply negb_true_iff.
Qed.

Lemma word_like_rev_cons (w : str) :
  word_like w = true ->
  exists c s, rev w = c :: s /\ isspace c = false.
Proof.
  unfold word_like. intros H. apply andb_prop in H as [Hn Hw].
  destruct (rev w) as [|c s] eqn:E.
  - apply (f_equal (@List.length _)) in E. rewrite length_rev in E.
    destruct w; discriminate.
  - exists c, s. split; [reflexivity|].
    rewrite forallb_forall in Hw. apply negb_true_iff, Hw, in_rev.
    rewrite E. now left.
Qed.

Lemma split_join (ws : list str) :
  Forall (fun w => word_like w = true) ws -> split (join [SPACE] ws) = ws.
Proof.
  induction 1 as [|w ws Hw Hws IH]; [reflexivity|].
  destruct (word_like_cons w Hw) as (c & w' & -> & Hc & Hall).
  unfold split in *. destruct ws as [|w2 ws].
  - cbn [join]. rewrite <- (app_nil_r (c :: w')), split_from_word by exact Hall.
    rewrite app_nil_r. cbn [split_from].
    destruct (rev (c :: w')) eqn:E.
    + apply (f_equal (@List.length _)) in E. rewrite length_rev in E. discriminate.
    + now rewrite <- E, rev_involutive, app_nil_r.
  - change (join [SPACE] ((c :: w') :: w2 :: ws))
      with ((c :: w') ++ SPACE :: join [SPACE] (w2 :: ws)).
    rewrite split_from_word by exact Hall. rewrite app_nil_r.
    cbn [split_from]. change (isspace SPACE) with true. cbv iota.
    destruct (rev (c :: w')) eqn:E.
    + apply (f_equal (@List.length _)) in E. rewrite length_rev in E. discriminate.
    + now rewrite <- E, rev_involutive, IH.
Qed.

Lemma word_like_rev (cur : str) :
  cur <> [] -> forallb (fun c => negb (isspace c)) cur = true ->
  word_like (rev cur) = true.
Proof.
  intros Hne Hall. unfold word_like. apply andb_true_intro. split.
  - destruct (rev cur) eqn:E; [|reflexivity].
    apply (f_equal (@List.length _)) in E. rewrite length_rev in E.
    destruct cur; [congruence|discriminate].
  - apply forallb_forall. intros c Hc. apply in_rev in Hc.
    revert c Hc. now apply forallb_forall.
Qed.

Lemma split_from_word_like (cur s : str) :
  forallb (fun c => negb (isspace c)) cur = true ->
  Forall (fun w => word_like w = true) (split_from cur s).
Proof.
  revert cur. induction s as [|c s IH]; intros cur Hcur; cbn [split_from].
  - destruct cur as [|x cur]; [constructor|].
    constructor; [|constructor]. now apply word_like_rev.
  - destruct (isspace c) eqn:Ec.
    + destruct cur as [|x cur]; [now apply IH|].
      constructor; [now apply word_like_rev|now apply IH].
    + apply IH. cbn [forallb]. now rewrite Ec.
Qed.

Lemma split_word_like (s : str) :
  Forall (fun w => word_like w = true) (split s).
Proof. now apply split_from_word_like. Qed.

(** *** One line of words *)

Lemma linebreak_isspace (c : char) : is_linebreak c = true -> isspace c = true.
Proof.
  unfold is_linebreak, isspace.
  repeat match goal with
         | |- context [(?a <=? ?b)%N] => destruct (N.leb_spec a b)
         | |- context [(?a =? ?b)%N] => destruct (N.eqb_spec a b)
         end; cbn; try reflexivity; try discriminate; intros _; lia.
Qed.

Lemma join_chars (ws : list str) (c : char) :
  In c (join [SPACE] ws) -> c = SPACE \/ exists w, In w ws /\ In c w.
Proof.
  induction ws as [|w ws IH]; [contradiction|].
  destruct ws as [|w2 ws].
  - cbn [join]. intros H. right. exists w. split; [now left|exact H].
  - change (join [SPACE] (w :: w2 :: ws))
      with (w ++ SPACE :: join [SPACE] (w2 :: ws)).
    rewrite in_app_iff. intros [H|[H|H]].
    + right. exists w. split; [now left|exact H].
    + left. now symmetry.
    + destruct (IH H) as [E|(w3 & Hw3 & Hc)]; [now left|].
      right. exists w3. split; [now right|exact Hc].
Qed.

Lemma join_no_linebreak (ws : list str) :
  Forall (fun w => word_like w = true) ws ->
  forallb (fun c => negb (is_linebreak c)) (join [SPACE] ws) = true.
Proof.
  intros Hws. apply forallb_forall. intros c Hc. apply negb_true_iff.
  destruct (join_chars ws c Hc) as [->|(w & Hw & Hcw)]; [reflexivity|].
  rewrite Forall_forall in Hws. apply list_elem_of_In in Hw.
  specialize (Hws w Hw).
  unfold word_like in Hws. apply andb_prop in Hws as [_ Hall].
  rewrite forallb_forall in Hall. specialize (Hall c Hcw).
  apply negb_true_iff in Hall.
  destruct (is_linebreak c) eqn:E; [|reflexivity].
  apply linebreak_isspace in E. congruence.
Qed.

Lemma splitlines_from_one_line (cur s : str) :
  forallb (fun c => negb (is_linebreak c)) s = true ->
  splitlines_from cur s
  = match rev cur ++ s with [] => [] | _ :: _ => [rev cur ++ s] end.
Proof.
  revert cur. induction s as [|c s IH]; intros cur Hs.
  - cbn [splitlines_from]. rewrite app_nil_r.
    destruct cur as [|x cur]; [reflexivity|].
    destruct (rev (x :: cur)) eqn:E; [|reflexivity].
    apply (f_equal (@List.length _)) in E. rewrite length_rev in E. discriminate.
  - cbn [forallb] in Hs. apply andb_prop in Hs as [Hc Hs].
    apply negb_true_iff in Hc. cbn [splitlines_from].
    assert (E13 : (c =? 13)%N = false).
    { destruct (N.eqb_spec c 13) as [->|]; [discriminate Hc|reflexivity]. }
    rewrite E13, Hc, IH by exact Hs. cbn [rev]. now rewrite <- app_assoc.
Qed.

Lemma lstrip_id (c : char) (s : str) :
  isspace c = false -> lstrip (c :: s) = c :: s.
Proof. intros H. cbn [lstrip]. now rewrite H. Qed.

Lemma join_snoc (ws : list str) (w2 w : str) :
  join [SPACE] ((w2 :: ws) ++ [w]) = join [SPACE] (w2 :: ws) ++ SPACE :: w.
Proof.
  revert w2. induction ws as [|w3 ws IH]; intros w2; [reflexivity|].
  change (join [SPACE] ((w2 :: w3 :: ws) ++ [w]))
    with (w2 ++ SPACE :: join [SPACE] ((w3 :: ws) ++ [w])).
  rewrite IH.
  change (join [SPACE] (w2 :: w3 :: ws))
    with (w2 ++ SPACE :: join [SPACE] (w3 :: ws)).
  now rewrite <- app_assoc.
Qed.

(** A line of words has no whitespace at either end. *)
Lemma strip_join (ws : list str) :
  Forall (fun w => word_like w = true) ws ->
  strip (join [SPACE] ws) = join [SPACE] ws.
Proof.
  intros Hws. destruct ws as [|w ws]; [reflexivity|].
  assert (Hhead : exists c s, join [SPACE] (w :: ws) = c :: s /\ isspace c = false).
  { apply Forall_cons in Hws as [Hw _].
    destruct (word_like_cons w Hw) as (c & w' & -> & Hc & _).
    destruct ws; cbn [join app]; eauto. }
  assert (Hlast : exists c s, rev (join [SPACE] (w :: ws)) = c :: s /\ isspace c = false).
  { destruct (exists_last (l := w :: ws)) as (ws' & wl & E); [discriminate|].
    rewrite E in *. apply Forall_app in Hws as [_ Hwl].
    apply Forall_cons in Hwl as [Hwl _].
    apply word_like_rev_cons in Hwl as (c & s & Es & Hc).
    destruct ws' as [|w2 ws'].
    - cbn [app join]. rewrite Es. eauto.
    - rewrite join_snoc, rev_app_distr. cbn [rev]. rewrite Es.
      cbn [app]. eauto. }
  destruct Hhead as (c & s & E & Hc). destruct Hlast as (c' & s' & E' & Hc').
  unfold strip, rstrip. rewrite E, (lstrip_id _ _ Hc), <- E, E'.
  rewrite (lstrip_id _ _ Hc'), <- E'. apply rev_involutive.
Qed.

Lemma merge_one_line (line : str) :
  line <> [] -> strip line = line -> _merge_broken_lines [line] = [line].
Proof.
  intros Hne Hs. unfold _merge_broken_lines. cbn [merge_loop]. rewrite Hs.
  destruct (List.length line <=? 2)%nat.
  - cbn [app]. destruct line; [congruence|reflexivity].
  - reflexivity.
Qed.

Lemma filter_str_eqb (w : str) (l : list str) :
  NoDup l -> In w l -> List.filter (str_eqb w) l = [w].
Proof.
  induction 1 as [|x l Hx Hnd IH]; [contradiction|].
  intros Hin. cbn [List.filter]. destruct (str_eqb w x) eqn:E.
  - apply str_eqb_eq in E. subst x. f_equal.
    assert (Hnone : forall o, In o l -> str_eqb w o = false).
    { intros o Ho. destruct (str_eqb w o) eqn:Eo; [|reflexivity].
      apply str_eqb_eq in Eo. subst o. exfalso. apply Hx.
      now apply list_elem_of_In. }
    clear -Hnone. induction l as [|o l IH]; [reflexivity|].
    cbn [List.filter]. rewrite Hnone by now left.
    apply IH. intros o' Ho'. apply Hnone. now right.
  - destruct Hin as [->|Hin]; [now rewrite str_eqb_refl in E|now apply IH].
Qed.

Section Settled.
Context {U : UnicodeData}.
Variable ratio : str -> str -> Q.

Lemma settled_spec (ws : list str) (w1 w2 : str) :
  settled ratio ws = true -> In w1 ws -> In w2 ws ->
  Qltb 0.85 (ratio w1 w2) = str_eqb w1 w2.
Proof.
  unfold settled. intros H H1 H2.
  rewrite forallb_forall in H. specialize (H w1 H1).
  rewrite forallb_forall in H. specialize (H w2 H2).
  now apply eqb_prop in H.
Qed.

Lemma vote_step_settled (words : list str)
    (canonical : gmap (list N) (list N)) (w : str) :
  settled ratio words = true -> In w words -> own_values canonical ->
  exists canonical',
    vote_step ratio (Counter words) canonical w = Ok canonical'
    /\ own_values canonical'
    /\ canonical' !! w = Some w
    /\ forall k v, canonical !! k = Some v -> canonical' !! k = Some v.
Proof.
  intros Hs Hw Hown. unfold vote_step.
  destruct (canonical !! w) as [v|] eqn:Ew.
  - exists canonical. split; [reflexivity|]. split; [exact Hown|].
    split; [|auto]. now rewrite (Hown _ _ Ew) in Ew.
  - destruct (Counter_keys words) as [Hnd Hkeys].
    assert (Eg : List.filter (fun other => Qltb 0.85 (ratio w other))
                             (List.map fst (Counter words)) = [w]).
    { rewrite <- (filter_str_eqb w (List.map fst (Counter words)) Hnd)
        by now apply Hkeys.
      apply filter_ext_in. intros o Ho. apply (settled_spec words); auto.
      now apply Hkeys. }
    rewrite Eg. cbn [max_by max_from bind fold_left].
    eexists. split; [reflexivity|]. split; [|split].
    + intros k v. destruct (decide (w = k)) as [->|Hne].
      * rewrite lookup_insert_eq. congruence.
      * rewrite lookup_insert_ne by exact Hne. apply Hown.
    + apply lookup_insert_eq.
    + intros k v Hk. rewrite lookup_insert_ne; [exact Hk|]. congruence.
Qed.

Lemma vote_loop_settled (words ws : list str)
    (canonical : gmap (list N) (list N)) :
  settled ratio words = true ->
  (forall w, In w ws -> In w words) -> own_values canonical ->
  exists canonical',
    vote_loop ratio (Counter words) canonical ws = Ok canonical'
    /\ own_values canonical'
    /\ (forall w, In w ws -> canonical' !! w = Some w)
    /\ forall k v, canonical !! k = Some v -> canonical' !! k = Some v.
Proof.
  intros Hs. revert canonical.
  induction ws as [|w ws IH]; intros canonical Hsub Hown; cbn [vote_loop].
  - exists canonical. split; [reflexivity|]. split; [exact Hown|].
    split; [contradiction|auto].
  - destruct (vote_step_settled words canonical w Hs (Hsub w (or_introl eq_refl)) Hown)
      as (c1 & E1 & Hown1 & Hw1 & Hkeep1).
    rewrite E1. cbn [bind].
    destruct (IH c1 (fun w' H => Hsub w' (or_intror H)) Hown1)
      as (c2 & E2 & Hown2 & Hin2 & Hkeep2).
    exists c2. split; [exact E2|]. split; [exact Hown2|]. split.
    + intros w' [<-|H]; [now apply Hkeep2|now apply Hin2].
    + intros k v Hk. now apply Hkeep2, Hkeep1.
Qed.

Lemma lookup_all_own (canonical : gmap (list N) (list N)) (words : list str) :
  (forall w, In w words -> canonical !! w = Some w) ->
  lookup_all canonical words = Ok words.
Proof.
  induction words as [|w words IH]; intros H; [reflexivity|].
  cbn [lookup_all]. rewrite (H w) by now left.
  rewrite IH by (intros w' Hw'; apply H; now right). reflexivity.
Qed.

(** Among words that resemble none but themselves, every word wins its own
    vote. *)
Lemma majority_vote_settled (words : list str) :
  settled ratio words = true -> _majority_vote ratio words = Ok words.
Proof.
  intros Hs. unfold _majority_vote.
  destruct (vote_loop_settled words (List.map fst (Counter words)) ∅ Hs)
    as (canonical & E & _ & Hin & _).
  - intros w. apply (proj2 (Counter_keys words)).
  - intros k v Hk. rewrite lookup_empty in Hk. discriminate.
  - rewrite E. cbn [bind]. apply lookup_all_own.
    intros w Hw. apply Hin. now apply (proj2 (Counter_keys words)).
Qed.

(** C4, as the code has it.  When the output of the normaliser is in NFC
    and its words are settled (no two different words of it have a ratio
    above 0.85, and each word has one with itself), normalising the output
    again returns it unchanged. *)
Theorem normalize_idempotent_when_settled (t out : str) :
  normalize ratio t = Ok out ->
  normalize_NFC out = out ->
  settled ratio (split out) = true ->
  normalize ratio out = Ok out.
Proof.
  intros Hout Hnfc Hs.
  destruct out as [|c out'] eqn:Eout; [reflexivity|]. rewrite <- Eout in *.
  assert (Hwords : exists ws, Forall (fun w => word_like w = true) ws
                              /\ out = join [SPACE] ws).
  { unfold normalize in Hout. destruct t as [|x t']; [congruence|].
    destruct (_majority_vote ratio _) as [ws|e] eqn:Ev; cbn [bind] in Hout;
      [|discriminate].
    injection Hout as Hout. exists ws. split; [|now symmetry].
    apply majority_vote_words in Ev.
    rewrite Forall_forall in Ev |- *. intros w Hw. specialize (Ev w Hw).
    pose proof (split_word_like (join [SPACE]
      (_merge_broken_lines (splitlines (normalize_NFC (x :: t'))))))
      as Hsplit.
    rewrite Forall_forall in Hsplit. apply Hsplit. now apply list_elem_of_In. }
  destruct Hwords as (ws & Hws & Ejoin).
  assert (Esplit : split out = ws) by (rewrite Ejoin; now apply split_join).
  unfold normalize. rewrite Eout, <- Eout, Hnfc.
  assert (Elines : splitlines out = [out]).
  { unfold splitlines. rewrite splitlines_from_one_line
      by (rewrite Ejoin; now apply join_no_linebreak).
    cbn [rev app]. now rewrite Eout. }
  rewrite Elines, merge_one_line.
  - cbn [join]. rewrite (majority_vote_settled _ Hs). cbn [bind].
    now rewrite Esplit, <- Ejoin.
  - rewrite Eout. discriminate.
  - rewrite Ejoin. now apply strip_join.
Qed.

End Settled.

(** "Widget 3", "x", "10.00 30.00" on three lines. *)
Lemma normalize_idempotent_when_settled_witness :
  normalize (U := basic_latin) SequenceMatcher_ratio widget_lines = Ok widget_line
  /\ normalize (U := basic_latin) SequenceMatcher_ratio widget_line = Ok widget_line.
Proof.
  assert (H : normalize (U := basic_latin) SequenceMatcher_ratio widget_lines
              = Ok widget_line) by (vm_compute; reflexivity).
  split; [exact H|].
  apply (normalize_idempotent_when_settled (U := basic_latin)
           SequenceMatcher_ratio widget_lines widget_line H).
  - reflexivity.
  - vm_compute. reflexivity.
Defined.

(** C4, as the claim words it, fails on three spellings of one word, each
    within the ratio of the next but the first not of the last: the first
    pass leaves two spellings, one now in the majority, and the second pass
    replaces the other by it. *)
Lemma normalize_twice_counterexample :
  normalize (U := basic_latin) SequenceMatcher_ratio three_spellings
  = Ok three_spellings_once
  /\ normalize (U := basic_latin) SequenceMatcher_ratio three_spellings_once
     = Ok three_spellings_twice
  /\ three_spellings_twice <> three_spellings_once.
Proof.
  split; [vm_compute; reflexivity|]. split; [vm_compute; reflexivity|].
  discriminate.
Qed.

End Normalizer.
